(** * l2beat discovery: the Arbitrum DAC keyset handler and the discovery runner

    A shallow embedding of

    - [packages/discovery/src/discovery/handlers/user/ArbitrumDACKeysetHandler.ts]
    - [packages/backend/src/modules/update-monitor/DiscoveryRunner.ts]
    - [packages/backend/src/modules/activity2/api/Activity2Controller.ts]

    JavaScript numbers are embedded as [Z] (counts, cursors, retry indices) and
    as [Q] (durations and gauge values).  The embedding computes exactly where
    the code computes on IEEE doubles: the two agree on integers below 2^53,
    and the theorems on the keyset decoder state that bound, and the bound
    2^32 of a JavaScript array on the number of loop iterations, wherever
    their conclusion needs it.  A call that may throw returns a
    [Result]; effects on collaborators (logger, timers, gauges, the engine) are
    recorded, in order, in an event trace threaded through a small
    state-and-exception monad. *)

From Stdlib Require Import ZArith QArith List String Ascii Strings.Byte Lia.
From stdpp Require Import base option list strings pretty gmap.

Local Open Scope string_scope.
Local Open Scope list_scope.
Local Open Scope Z_scope.

(** * JavaScript calls that may throw *)

Inductive Result (E A : Type) : Type :=
| Ok (a : A)
| Throw (e : E).
Arguments Ok {E A} a.
Arguments Throw {E A} e.


(** The part of the JavaScript runtime and of the helper libraries the two
    files rely on.  [Thrown] is the type of values a [catch] clause can
    receive: objects and primitives, [null] and [undefined] among them (a
    promise may be rejected with any value). *)
Class JsRuntime := {
  Thrown : Type;
  (** lodash [isError] *)
  isError : Thrown -> bool;
  (** the value is [null] or [undefined] *)
  isNullish : Thrown -> bool;
  (** [new Error(message)] *)
  newError : string -> Thrown;
  (** [new TypeError(message)] *)
  newTypeError : string -> Thrown;
  (** the message [new Error(JSON.stringify(error))] receives: the JSON text
      of [error], and no text where [JSON.stringify] returns [undefined] *)
  JSON_stringify : Thrown -> string;
  (** [JSON.stringify(err, Object.getOwnPropertyNames(err), 2)], for [err]
      other than [null] and [undefined] *)
  errorString : Thrown -> string;
  (** the value thrown by a failed [assert(condition, message)] of
      [@l2beat/shared-pure] *)
  assertionError : option string -> Thrown;
  isError_newError : forall s, isError (newError s) = true;
  (** [isError(null)] and [isError(undefined)] are [false] *)
  isNullish_isError : forall x, isError x = true -> isNullish x = false
}.

(** [Object.getOwnPropertyNames(value)]: a [TypeError] for [null] and
    [undefined]. *)
Definition getOwnPropertyNames `{JsRuntime} (value : Thrown)
  : Result Thrown unit :=
  if isNullish value
  then Throw (newTypeError "Cannot convert undefined or null to object")
  else Ok tt.

(** [assert(condition, message)] *)
Definition assert `{JsRuntime} (condition : bool) (message : option string)
  : Result Thrown unit :=
  if condition then Ok tt else Throw (assertionError message).

(** * Byte strings *)

Definition byteVal (b : byte) : Z := Z.of_N (Byte.to_N b).

Definition byteOfZ (z : Z) : byte :=
  match Byte.of_N (Z.to_N z) with
  | Some b => b
  | None => x00
  end.

(** Modelled from the spec: the [Bytes] class of [@l2beat/shared-pure], which
    is not among the sources.  A value is the sequence of bytes of the hex
    string it was built from; [slice] selects the bytes from index [start]
    (inclusive) to [end] (exclusive), shortened to what the buffer holds, and
    [toNumber] reads the bytes as one big-endian integer ("bytes 0-7 =
    big-endian assumed honest count", "a 2-byte big-endian length"). *)
Module Bytes.

Definition t := list byte.

Definition length (b : t) : Z := Z.of_nat (List.length b).

Definition slice (b : t) (start end_ : Z) : t :=
  take (Z.to_nat (end_ - start)) (drop (Z.to_nat start) b).

Definition toNumber (b : t) : Z :=
  fold_left (fun acc x => acc * 256 + byteVal x) b 0.

End Bytes.

(** * Base64 (ethers' [base64.encode]) *)

Definition base64_alphabet : string :=
  "ABCDEFGHIJKLMNOPQRSTUVWXYZabcdefghijklmnopqrstuvwxyz0123456789+/".

Definition base64_char (n : Z) : ascii :=
  match String.get (Z.to_nat n) base64_alphabet with
  | Some c => c
  | None => "="%char
  end.

Fixpoint base64_encode (bs : list byte) : string :=
  match bs with
  | [] => ""
  | [a] =>
      let x := byteVal a in
      String (base64_char (x / 4))
        (String (base64_char ((x mod 4) * 16)) "==")
  | [a; b] =>
      let x := byteVal a in
      let y := byteVal b in
      String (base64_char (x / 4))
        (String (base64_char ((x mod 4) * 16 + y / 16))
           (String (base64_char ((y mod 16) * 4)) "="))
  | a :: b :: c :: rest =>
      let x := byteVal a in
      let y := byteVal b in
      let z := byteVal c in
      String (base64_char (x / 4))
        (String (base64_char ((x mod 4) * 16 + y / 16))
           (String (base64_char ((y mod 16) * 4 + z / 64))
              (String (base64_char (z mod 64)) (base64_encode rest))))
  end.

(** * ArbitrumDACKeysetHandler.ts *)

Module ArbitrumDACKeyset.

(** [providers.Log] of ethers; only [data] is read by the handler. *)
Record Log := {
  log_topics : list string;
  log_data : string
}.

(** The ethers [utils.Interface] built from
    ['event SetValidKeyset(bytes32 indexed keysetHash, bytes keysetBytes)']:
    [decodeEventLog] followed by [Bytes.fromHex] on the [keysetBytes]
    component, and the topic of the event. *)
Class Abi `{JsRuntime} := {
  decodeEventLog_keysetBytes : string -> Result Thrown Bytes.t;
  getEventTopic : string
}.

(** The value of the handler's field. *)
Record Keyset := {
  requiredSignatures : Z;
  membersCount : Z;
  blsSignatures : list string
}.

Record HandlerResult := {
  field : string;
  value : Keyset
}.

Section Handler.
Context `{Abi}.

(** The body of the [for] loop of [decodeLastEvent], run [n] more times from
    cursor [head]; returns the signatures pushed so far and the cursor.  The
    loop of the code pushes one element per iteration onto a JavaScript
    array, which holds fewer than 2^32 of them: the function stands for the
    loop for [n] below that bound. *)
Fixpoint readMembers (keysetBytes : Bytes.t) (n : nat) (head : Z)
    (blsSignatures : list string) : list string * Z :=
  match n with
  | O => (blsSignatures, head)
  | S n' =>
      let size := Bytes.toNumber (Bytes.slice keysetBytes head (head + 2)) in
      let head := head + 2 in
      let blsSignatures :=
        blsSignatures
          ++ [base64_encode (Bytes.slice keysetBytes head (head + size))] in
      let head := head + size in
      readMembers keysetBytes n' head blsSignatures
  end.

(** [decodeLastEvent], from the decoded payload on.  The two header values
    are exact integers here and doubles in the code; they agree below
    2^53. *)
Definition decodeKeysetBytes (keysetBytes : Bytes.t) : Result Thrown Keyset :=
  let assummedHonestMembers :=
    Bytes.toNumber (Bytes.slice keysetBytes 0 8) in
  let membersCount := Bytes.toNumber (Bytes.slice keysetBytes 8 16) in
  let requiredSignatures := membersCount - assummedHonestMembers + 1 in
  let '(blsSignatures, head) :=
    readMembers keysetBytes (Z.to_nat membersCount) 16 [] in
  match assert (head =? Bytes.length keysetBytes) None with
  | Throw e => Throw e
  | Ok _ =>
      Ok {| requiredSignatures := requiredSignatures;
            membersCount := membersCount;
            blsSignatures := blsSignatures |}
  end.

Definition decodeLastEvent (events : list Log) : Result Thrown Keyset :=
  if (List.length events =? 0)%nat then
    Ok {| requiredSignatures := 0; membersCount := 0; blsSignatures := [] |}
  else
    match last events with
    | None => Throw (assertionError (Some "Unexpected lack of event"))
    | Some lastEvent =>
        match decodeEventLog_keysetBytes (log_data lastEvent) with
        | Throw e => Throw e
        | Ok keysetBytes => decodeKeysetBytes keysetBytes
        end
    end.

(** The cursor after the member loop of [decodeLastEvent]. *)
Definition finalHead (keysetBytes : Bytes.t) : Z :=
  snd (readMembers keysetBytes
         (Z.to_nat (Bytes.toNumber (Bytes.slice keysetBytes 8 16))) 16 []).

(** [IProvider], as far as the handler uses it. *)
Record IProvider := {
  getLogs : string -> list (list string) -> Result Thrown (list Log)
}.

(** [ArbitrumDACKeysetHandler.execute]: the lines handed to
    [logger.logExecution], and the outcome. *)
Definition execute (this_field : string) (provider : IProvider)
    (address : string)
  : list (string * list string) * Result Thrown HandlerResult :=
  let logged := [(this_field, ["Resolving Arbitrum DAC Keyset"])] in
  match getLogs provider address [[getEventTopic]] with
  | Throw e => (logged, Throw e)
  | Ok events =>
      match decodeLastEvent events with
      | Throw e => (logged, Throw e)
      | Ok k =>
          (logged,
           Ok {| field := this_field;
                 value := {| requiredSignatures := requiredSignatures k;
                             membersCount := membersCount k;
                             blsSignatures := blsSignatures k |} |})
      end
  end.

End Handler.

End ArbitrumDACKeyset.

(** * DiscoveryRunner.ts *)

Module DiscoveryRunner.

Definition EthereumAddress := string.

(** JSON values, for the configuration fields the runner does not read. *)
#[warnings="-register-all"]
Inductive Json : Type :=
| JNull
| JBool (b : bool)
| JNum (n : Z)
| JStr (s : string)
| JArr (items : list Json)
| JObj (members : list (string * Json)).

(** Modelled from the spec: [RawDiscoveryConfig] of [@l2beat/discovery], which
    is not among the sources ("Run Config: seed addresses, bounds, chain").
    The three fields [updateInitialAddresses] writes and the two it reads are
    typed; [others] holds every other own property of the object, by key. *)
Record RawDiscoveryConfig := {
  raw_name : string;
  raw_chain : string;
  raw_initialAddresses : list EthereumAddress;
  raw_maxAddresses : option Z;
  raw_maxDepth : option Z;
  raw_others : gmap string Json
}.

(** Modelled from the spec: the [DiscoveryConfig] class of [@l2beat/discovery],
    which is not among the sources; it wraps the raw object it was built from
    and answers [name] and [chain] from it. *)
Record DiscoveryConfig := newDiscoveryConfig {
  raw : RawDiscoveryConfig
}.

Definition config_name (c : DiscoveryConfig) : string := raw_name (raw c).
Definition config_chain (c : DiscoveryConfig) : string := raw_chain (raw c).

(** Modelled from the spec: [DiscoveryOutput] of [@l2beat/discovery-types],
    which is not among the sources ("{project, chain, configHash,
    blockNumber, contracts: ordered list of {address, fields,
    childAddresses}}"). *)
Record ContractParameters := {
  address : EthereumAddress;
  contract_fields : Json;
  contract_childAddresses : list EthereumAddress
}.

Record DiscoveryOutput := {
  out_name : string;
  out_chain : string;
  out_configHash : string;
  out_blockNumber : Z;
  contracts : list ContractParameters
}.

Record DiscoveryRunResult := {
  discovery : DiscoveryOutput;
  flatSources : gmap string string
}.

(** Modelled from the spec: the statistics of
    [@l2beat/discovery/dist/discovery/provider/Stats], which is not among the
    sources ("Call Record: tier, method, duration"; "call count and average
    duration").  [ProviderStats.get] is the lookup by measurement index. *)
Record ProviderStat := {
  count : Z;
  durations : list Q
}.

Definition ProviderStats := Z -> ProviderStat.

Record AllProviderStats := {
  lowLevelMeasurements : ProviderStats;
  cacheMeasurements : ProviderStats;
  highLevelMeasurements : ProviderStats
}.

(** The six prom-client gauges declared at the end of the file. *)
Inductive ProviderGauge : Type :=
| lowLevelProviderCountGauge
| lowLevelProviderDurationGauge
| cacheProviderCountGauge
| cacheProviderDurationGauge
| highLevelProviderCountGauge
| highLevelProviderDurationGauge.

(** What the runner does to its collaborators, in program order. *)
Inductive Event : Type :=
| EvReadDiscovery (name chain : string)
| EvGetProvider (chain : string) (blockNumber : Z)
| EvEngineDiscover (config : DiscoveryConfig)
| EvGaugeSet (gauge : ProviderGauge) (chain method : string) (v : Q)
| EvToDiscoveryOutput
| EvFlattenSources
| EvWarn (message : string)
| EvSetTimeout (ms : Z).

(** [calls] is the number of times [discover] has been entered; the
    collaborators answer the k-th entry by their k-th scripted outcome. *)
Record World := {
  calls : nat;
  trace : list Event
}.

(** The collaborators of the runner: [AllProviders], [DiscoveryEngine],
    [ConfigReader], the two converters of [@l2beat/discovery] and the
    [ProviderMeasurement] table.  The first argument of the scripted ones is
    the index of the attempt they are called in. *)
Class Collaborators `{JsRuntime} := {
  Provider : Type;
  Analysis : Type;
  allProviders_get : nat -> string -> Z -> Result Thrown Provider;
  allProviders_getStats : nat -> string -> AllProviderStats;
  discoveryEngine_discover :
    nat -> Provider -> DiscoveryConfig -> Result Thrown Analysis;
  configReader_readDiscovery : string -> string -> Result Thrown DiscoveryOutput;
  config_hash : DiscoveryConfig -> string;
  toDiscoveryOutput :
    string -> string -> string -> Z -> Analysis -> Result Thrown DiscoveryOutput;
  flattenDiscoveredSources : Analysis -> Result Thrown (gmap string string);
  (** [Object.entries(ProviderMeasurement)] *)
  ProviderMeasurement_entries : list (string * Z)
}.

Section Monad.
Context `{JsRuntime}.

Definition M (A : Type) : Type := World -> Result Thrown A * World.

Definition ret {A} (a : A) : M A := fun w => (Ok a, w).

Definition throw {A} (e : Thrown) : M A := fun w => (Throw e, w).

Definition bind {A B} (c : M A) (k : A -> M B) : M B :=
  fun w =>
    match c w with
    | (Ok a, w') => k a w'
    | (Throw e, w') => (Throw e, w')
    end.

Definition emit (ev : Event) : M unit :=
  fun w => (Ok tt, {| calls := calls w; trace := trace w ++ [ev] |}).

(** A call to a collaborator: recorded, then its outcome. *)
Definition call {A} (ev : Event) (r : Result Thrown A) : M A :=
  fun w => (r, {| calls := calls w; trace := trace w ++ [ev] |}).

(** Entering [discover]: the index of this attempt. *)
Definition enter : M nat :=
  fun w => (Ok (calls w), {| calls := S (calls w); trace := trace w |}).

End Monad.

Notation "x <- c ;; k" := (bind c (fun x => k))
  (at level 100, c at next level, right associativity).
Notation "c ;;; k" := (bind c (fun _ => k))
  (at level 100, right associativity).

Record DiscoveryRunnerOptions := {
  injectInitialAddresses : bool;
  maxRetries : option Z;
  retryDelayMs : option Z
}.

Record Runner := {
  this_chain : string
}.

Definition MAX_RETRIES : Z := 30.
Definition RETRY_DELAY_MS : Z := 20000.

Section Runner.
Context `{Collaborators}.

(** [entry.durations.reduce((acc, v) => acc + v) / entry.durations.length]
    under the guard [entry.durations.length > 0], and [0] otherwise.  The sum
    and the quotient are exact rationals here; the code rounds each of them
    to a double. *)
Definition average (durations : list Q) : Q :=
  match durations with
  | [] => 0%Q
  | d :: ds =>
      (fold_left Qplus ds d / inject_Z (Z.of_nat (length durations)))%Q
  end.

Fixpoint setProviderGaugeEntries (entries : list (string * Z))
    (countGauge durationGauge : ProviderGauge) (stats : ProviderStats)
    (chain : string) : M unit :=
  match entries with
  | [] => ret tt
  | (key, index) :: rest =>
      let entry := stats index in
      let avg := average (durations entry) in
      emit (EvGaugeSet countGauge chain key (inject_Z (count entry))) ;;;
      emit (EvGaugeSet durationGauge chain key avg) ;;;
      setProviderGaugeEntries rest countGauge durationGauge stats chain
  end.

Definition setProviderGauge (countGauge durationGauge : ProviderGauge)
    (stats : ProviderStats) (chain : string) : M unit :=
  setProviderGaugeEntries ProviderMeasurement_entries
    countGauge durationGauge stats chain.

Definition setDiscoveryMetrics (stats : AllProviderStats) (chain : string)
  : M unit :=
  setProviderGauge lowLevelProviderCountGauge lowLevelProviderDurationGauge
    (lowLevelMeasurements stats) chain ;;;
  setProviderGauge cacheProviderCountGauge cacheProviderDurationGauge
    (cacheMeasurements stats) chain ;;;
  setProviderGauge highLevelProviderCountGauge highLevelProviderDurationGauge
    (highLevelMeasurements stats) chain.

Definition discover (config : DiscoveryConfig) (blockNumber : Z)
  : M DiscoveryRunResult :=
  k <- enter ;;
  provider <- call (EvGetProvider (config_chain config) blockNumber)
                (allProviders_get k (config_chain config) blockNumber) ;;
  result <- call (EvEngineDiscover config)
              (discoveryEngine_discover k provider config) ;;
  setDiscoveryMetrics (allProviders_getStats k (config_chain config))
    (config_chain config) ;;;
  discovery <- call EvToDiscoveryOutput
                 (toDiscoveryOutput (config_name config) (config_chain config)
                    (config_hash config) blockNumber result) ;;
  flatSources <- call EvFlattenSources (flattenDiscoveredSources result) ;;
  ret {| discovery := discovery; flatSources := flatSources |}.

(** The text handed to [logger.warn]. *)
Definition retryMessage (config : DiscoveryConfig) (i : Z)
    (errorString : string) : string :=
  "DiscoveryRunner: Retrying " +:+ config_name config +:+ " (chain: "
    +:+ config_chain config +:+ ") | attempt:" +:+ pretty i
    +:+ " | error:" +:+ errorString.

(** The assignment in the [catch] clause:
    [err = isError(err) ? (error as Error) : new Error(JSON.stringify(error))],
    where the test is on the previous value of [err]. *)
Definition caught (err : option Thrown) (error : Thrown) : Thrown :=
  if match err with Some e => isError e | None => false end
  then error
  else newError (JSON_stringify error).

(** The [for] loop of [discoverWithRetry] with [n] iterations left, at index
    [i]; returns the final [result] and [err].  An attempt that returns
    leaves the loop ([break]); one that throws is caught, and the warning and
    the delay follow the [catch] clause in the loop body.  The text of the
    warning is built outside the [try]: where [Object.getOwnPropertyNames(err)]
    throws, its [TypeError] leaves the loop and the function, with no warning
    and no delay for that attempt. *)
Fixpoint retryLoop (config : DiscoveryConfig) (blockNumber : Z) (delayMs : Z)
    (n : nat) (i : Z) (err : option Thrown)
  : M (option DiscoveryRunResult * option Thrown) :=
  match n with
  | O => ret (None, err)
  | S n' =>
      fun w =>
        match discover config blockNumber w with
        | (Ok result, w') => (Ok (Some result, err), w')
        | (Throw error, w') =>
            let err := caught err error in
            match getOwnPropertyNames err with
            | Throw typeError => (Throw typeError, w')
            | Ok _ =>
                let errorString := errorString err in
                (emit (EvWarn (retryMessage config i errorString)) ;;;
                 emit (EvSetTimeout delayMs) ;;;
                 retryLoop config blockNumber delayMs n' (i + 1) (Some err)) w'
            end
        end
  end.

(** [discoverWithRetry]; [maxRetries] and [delayMs] are the optional
    arguments with their defaults.  The field [discovery] of a
    [DiscoveryRunResult] is not optional, so [result?.discovery === undefined]
    is the case in which no attempt has returned. *)
Definition discoverWithRetry (config : DiscoveryConfig) (blockNumber : Z)
    (maxRetries delayMs : option Z) : M DiscoveryRunResult :=
  let maxRetries := default MAX_RETRIES maxRetries in
  let delayMs := default RETRY_DELAY_MS delayMs in
  final <-
    retryLoop config blockNumber delayMs (Z.to_nat (maxRetries + 1)) 0 None ;;
  let '(result, err) := final in
  match result with
  | None =>
      match err with
      | None =>
          throw (assertionError
                   (Some "Programmer error: Error should not be undefined there"))
      | Some err => throw err
      end
  | Some result => ret result
  end.

Definition updateInitialAddresses (this : Runner) (config : DiscoveryConfig)
  : M DiscoveryConfig :=
  discovery <- call (EvReadDiscovery (config_name config) (this_chain this))
                 (configReader_readDiscovery (config_name config)
                    (this_chain this)) ;;
  let initialAddresses := map address (contracts discovery) in
  ret (newDiscoveryConfig
         {| raw_name := raw_name (raw config);
            raw_chain := raw_chain (raw config);
            raw_others := raw_others (raw config);
            raw_initialAddresses := initialAddresses;
            raw_maxAddresses :=
              Some (default 200 (raw_maxAddresses (raw config)) * 3);
            raw_maxDepth :=
              Some (default 6 (raw_maxDepth (raw config)) * 3) |}).

Definition run (this : Runner) (projectConfig : DiscoveryConfig)
    (blockNumber : Z) (options : DiscoveryRunnerOptions)
  : M DiscoveryRunResult :=
  config <- (if injectInitialAddresses options
             then updateInitialAddresses this projectConfig
             else ret projectConfig) ;;
  discoverWithRetry config blockNumber
    (maxRetries options) (retryDelayMs options).

End Runner.

End DiscoveryRunner.

(** * Activity2Controller.ts *)

Module Activity2Controller.

(** [Result<T, E>] of [@l2beat/shared-pure]:
    [{ type: 'success', data }] or [{ type: 'error', error }]. *)
Inductive ApiResult (T E : Type) : Type :=
| success (data : T)
| error (e : E).
Arguments success {T E} data.
Arguments error {T E} e.

Inductive AlignError : Type :=
| DATA_NOT_SYNCED
| ETHEREUM_DATA_DELAYED.

Inductive MapSlugsError : Type :=
| UNKNOWN_PROJECT
| NO_TRANSACTION_API
| EMPTY_PROJECTS.

(** Modelled from the spec: [DailyTransactionCount] of [./types], which is not
    among the sources; the two properties the controller reads.  A
    [UnixTime] is an object around a number of seconds, here that number. *)
Record DailyTransactionCount := {
  timestamp : Z;
  count : Z
}.

(** [ActivityApiChartPoint]: [[timestamp, count, ethereumCount]]. *)
Definition ActivityApiChartPoint : Type := Z * Z * Z.

(** [Array.prototype.at]: a negative index counts from the end, an index
    outside the array gives [undefined]. *)
Definition at_ {A} (l : list A) (index : Z) : option A :=
  let k := if index <? 0 then Z.of_nat (length l) + index else index in
  if k <? 0 then None else l !! Z.to_nat k.

(** [Array.prototype.findIndex], from position [i] on: the first index whose
    element satisfies the predicate, or [-1]. *)
Fixpoint findIndexFrom {A} (p : A -> bool) (l : list A) (i : Z) : Z :=
  match l with
  | [] => -1
  | x :: rest => if p x then i else findIndexFrom p rest (i + 1)
  end.

Definition findIndex {A} (p : A -> bool) (l : list A) : Z :=
  findIndexFrom p l 0.

(** The position an argument of [Array.prototype.slice] stands for. *)
Definition relativeIndex (len k : Z) : Z :=
  if k <? 0 then Z.max (len + k) 0 else Z.min k len.

(** [Array.prototype.slice(start, end)] *)
Definition slice {A} (l : list A) (start end_ : Z) : list A :=
  let len := Z.of_nat (length l) in
  let from := relativeIndex len start in
  let to := relativeIndex len end_ in
  take (Z.to_nat (to - from)) (drop (Z.to_nat from) l).

(** [alignActivityData]; the second argument is optional and defaults to the
    empty array.  [lastProjectTimestamp] is a [UnixTime] object or
    [undefined], so [!lastProjectTimestamp] holds exactly when it is
    [undefined]. *)
Definition alignActivityData (apiChartData : list DailyTransactionCount)
    (ethereumChartData : option (list DailyTransactionCount))
  : ApiResult (list ActivityApiChartPoint) AlignError :=
  let ethereumChartData := default [] ethereumChartData in
  match option_map timestamp (at_ apiChartData (-1)) with
  | None => error DATA_NOT_SYNCED
  | Some lastProjectTimestamp =>
      let ethChartTimestampIndex :=
        findIndex (fun x => timestamp x =? lastProjectTimestamp)
          ethereumChartData in
      if ethChartTimestampIndex =? -1 then error ETHEREUM_DATA_DELAYED
      else
        let alignedEthChartData :=
          slice ethereumChartData 0 (ethChartTimestampIndex + 1) in
        let length :=
          Z.min (Z.of_nat (length apiChartData))
            (Z.of_nat (length alignedEthChartData)) in
        let data :=
          map (fun i =>
                 let apiPoint := at_ apiChartData (- length + i) in
                 let ethPoint := at_ alignedEthChartData (- length + i) in
                 (from_option timestamp 0 apiPoint,
                  from_option count 0 apiPoint,
                  from_option count 0 ethPoint))
            (seqZ 0 length) in
        success data
  end.

(** Modelled from the spec: [Layer2 | Layer3] of [@l2beat/config], which is
    not among the sources; the three properties [mapSlugsToProjectIds] reads:
    [id], [display.slug], and whether [config.transactionApi] is there. *)
Record Project := {
  project_id : string;
  display_slug : string;
  config_transactionApi : option string
}.

(** The [for] loop of [mapSlugsToProjectIds] over the remaining slugs;
    [None] is the return of [UNKNOWN_PROJECT] from inside the loop. *)
Fixpoint findProjects (allProjects : list Project) (slugs : list string)
    (projects : list Project) : option (list Project) :=
  match slugs with
  | [] => Some projects
  | s :: rest =>
      match find (fun project => String.eqb (display_slug project) s)
              allProjects with
      | None => None
      | Some project => findProjects allProjects rest (projects ++ [project])
      end
  end.

(** [mapSlugsToProjectIds], with the two imported project lists as
    arguments. *)
Definition mapSlugsToProjectIds (layer2s layer3s : list Project)
    (slugs : list string) : ApiResult (list string) MapSlugsError :=
  if (length slugs =? 0)%nat then error EMPTY_PROJECTS
  else
    let allProjects := layer2s ++ layer3s in
    match findProjects allProjects slugs [] with
    | None => error UNKNOWN_PROJECT
    | Some projects =>
        if negb (existsb (fun p => bool_decide (is_Some (config_transactionApi p)))
                   projects)
        then error NO_TRANSACTION_API
        else success (map project_id projects)
    end.

(** A JavaScript [Map] with string keys, as its entries in insertion order;
    [set] on a key that is there replaces the value in place. *)
Definition JsMap (V : Type) : Type := list (string * V).

Fixpoint mapSet {V} (m : JsMap V) (key : string) (v : V) : JsMap V :=
  match m with
  | [] => [(key, v)]
  | (key', v') :: rest =>
      if String.eqb key' key then (key, v) :: rest
      else (key', v') :: mapSet rest key v
  end.

Definition mapGet {V} (m : JsMap V) (key : string) : option V :=
  option_map snd (find (fun entry => String.eqb (fst entry) key) m).

(** [ProjectId.ETHEREUM] *)
Definition ETHEREUM : string := "ethereum".

(** [UnixTime.DAY], in seconds. *)
Definition DAY : Z := 86400.

(** Modelled from the spec: a row of [db.activity.getDailyCounts()], which is
    not among the sources; the three properties the controller reads. *)
Record ActivityRecord := {
  record_projectId : string;
  record_timestamp : Z;
  record_count : Z
}.

Section Controller.

(** [postprocessCounts], [toCombinedActivity] and [formatActivityChart] of
    the same directory, which are not among the sources, with the types of
    what the last two return. *)
Context {Chart EstimationInfo : Type}.
Context (postprocessCounts :
           list ActivityRecord -> bool -> Z -> list DailyTransactionCount).
Context (toCombinedActivity :
           JsMap (list DailyTransactionCount)
           -> list DailyTransactionCount * EstimationInfo).
Context (formatActivityChart : list ActivityApiChartPoint -> Chart).

(** The [for] loop of [getPostprocessedDailyCounts] over the remaining
    project ids. *)
Fixpoint postprocessProjects (this_projectIds : list string)
    (counts : list ActivityRecord) (today : Z) (remaining : list string)
    (result : JsMap (list DailyTransactionCount))
  : JsMap (list DailyTransactionCount) :=
  match remaining with
  | [] => result
  | projectId :: rest =>
      let continue :=
        postprocessProjects this_projectIds counts today rest in
      if negb (existsb (String.eqb projectId) this_projectIds)
      then continue result
      else
        let projectCounts :=
          List.filter (fun c => String.eqb (record_projectId c) projectId)
            counts in
        if from_option (fun c => record_timestamp c <? today + (-7) * DAY)
             false (at_ projectCounts (-1))
        then continue result
        else
          let postprocessedCounts :=
            postprocessCounts projectCounts
              (from_option (fun c => record_timestamp c =? today)
                 false (at_ projectCounts (-1)))
              today in
          if (length postprocessedCounts =? 0)%nat then continue result
          else continue (mapSet result projectId postprocessedCounts)
  end.

(** [getPostprocessedDailyCounts], given the rows [db.activity.getDailyCounts()]
    has returned and the day [clock.getLastHour().toStartOf('day')]. *)
Definition getPostprocessedDailyCounts (this_projectIds : list string)
    (counts : list ActivityRecord) (today : Z)
  : JsMap (list DailyTransactionCount) :=
  postprocessProjects this_projectIds counts today this_projectIds [].

(** The first loop of [getActivity]: the project charts and the Ethereum
    chart. *)
Fixpoint splitCounts (this_projectIds : list string)
    (dbCounts : JsMap (list DailyTransactionCount))
    (projectCounts : JsMap (list DailyTransactionCount))
    (ethereumCounts : option (list DailyTransactionCount))
  : JsMap (list DailyTransactionCount)
    * option (list DailyTransactionCount) :=
  match dbCounts with
  | [] => (projectCounts, ethereumCounts)
  | (projectId, counts) :: rest =>
      if String.eqb projectId ETHEREUM
      then splitCounts this_projectIds rest projectCounts (Some counts)
      else if negb (existsb (String.eqb projectId) this_projectIds)
      then splitCounts this_projectIds rest projectCounts ethereumCounts
      else splitCounts this_projectIds rest
             (mapSet projectCounts projectId counts) ethereumCounts
  end.

(** The second loop of [getActivity]: the chart of every project, or the
    first alignment error. *)
Fixpoint alignProjects (entries : JsMap (list DailyTransactionCount))
    (ethereumCounts : option (list DailyTransactionCount))
    (projects : gmap string Chart)
  : ApiResult (gmap string Chart) AlignError :=
  match entries with
  | [] => success projects
  | (projectId, counts) :: rest =>
      match alignActivityData counts ethereumCounts with
      | error e => error e
      | success data =>
          alignProjects rest ethereumCounts
            (<[projectId := formatActivityChart data]> projects)
      end
  end.

(** [ActivityApiResponse]: [combined] is the chart spread together with the
    estimation info. *)
Record ActivityApiResponse := {
  combined : Chart * EstimationInfo;
  projects : gmap string Chart
}.

(** [getActivity], given the rows and the day as for
    [getPostprocessedDailyCounts]. *)
Definition getActivity (this_projectIds : list string)
    (counts : list ActivityRecord) (today : Z)
  : ApiResult ActivityApiResponse AlignError :=
  let dbCounts := getPostprocessedDailyCounts this_projectIds counts today in
  let '(projectCounts, ethereumCounts) :=
    splitCounts this_projectIds dbCounts [] None in
  let '(combinedDaily, estimationInfo) := toCombinedActivity projectCounts in
  match alignActivityData combinedDaily ethereumCounts with
  | error e => error e
  | success combinedData =>
      match alignProjects projectCounts ethereumCounts ∅ with
      | error e => error e
      | success projects =>
          success {| combined :=
                       (formatActivityChart combinedData, estimationInfo);
                     projects := projects |}
      end
  end.

(** [getAggregatedActivity], given the two results of the database and the
    day. *)
Definition getAggregatedActivity
    (aggregatedDailyCounts ethereumCounts : list ActivityRecord) (now : Z)
  : ApiResult Chart AlignError :=
  let processedCounts := postprocessCounts aggregatedDailyCounts true now in
  let processedEthereumCounts := postprocessCounts ethereumCounts true now in
  match alignActivityData processedCounts (Some processedEthereumCounts) with
  | error e => error e
  | success data => success (formatActivityChart data)
  end.

End Controller.

End Activity2Controller.

(** The project a slug stands for in [mapSlugsToProjectIds]: the first of the
    list with that slug. *)
Definition lookupSlug (allProjects : list Activity2Controller.Project)
    (s : string) : option Activity2Controller.Project :=
  find (fun project =>
          String.eqb (Activity2Controller.display_slug project) s)
    allProjects.

(** What one iteration of the loop of [getPostprocessedDailyCounts] stores
    for a project id, if anything. *)
Definition postprocessedEntry
    (postprocessCounts :
       list Activity2Controller.ActivityRecord -> bool -> Z
       -> list Activity2Controller.DailyTransactionCount)
    (this_projectIds : list string)
    (counts : list Activity2Controller.ActivityRecord) (today : Z)
    (projectId : string)
  : option (list Activity2Controller.DailyTransactionCount) :=
  let projectCounts :=
    List.filter
      (fun c => String.eqb (Activity2Controller.record_projectId c) projectId)
      counts in
  let lastCount := last projectCounts in
  if negb (existsb (String.eqb projectId) this_projectIds) then None
  else if from_option
            (fun c => Activity2Controller.record_timestamp c
                      <? today + (-7) * Activity2Controller.DAY)
            false lastCount
  then None
  else
    match postprocessCounts projectCounts
            (from_option
               (fun c => Activity2Controller.record_timestamp c =? today)
               false lastCount)
            today with
    | [] => None
    | v => Some v
    end.

(** * The payload layout, in the words of the specification

    "bytes 0-7 = big-endian assumed honest count; bytes 8-15 = total member
    count N; starting at byte 16, N times: a 2-byte big-endian length, then
    that many bytes as one member's signing key".  These definitions are
    written from that sentence, to compare [decodeLastEvent] with. *)

Fixpoint bigEndian (width : nat) (n : Z) : Bytes.t :=
  match width with
  | O => []
  | S width' => bigEndian width' (n / 256) ++ [byteOfZ (n mod 256)]
  end.

Definition memberLayout (key : Bytes.t) : Bytes.t :=
  bigEndian 2 (Bytes.length key) ++ key.

Definition keysetLayout (assumedHonest : Z) (keys : list Bytes.t) : Bytes.t :=
  bigEndian 8 assumedHonest
    ++ bigEndian 8 (Z.of_nat (length keys))
    ++ concat (map memberLayout keys).

(** * Reading a trace *)

Definition warnings (t : list DiscoveryRunner.Event) : list string :=
  omap (fun ev =>
          match ev with
          | DiscoveryRunner.EvWarn message => Some message
          | _ => None
          end) t.

Definition delays (t : list DiscoveryRunner.Event) : list Z :=
  omap (fun ev =>
          match ev with
          | DiscoveryRunner.EvSetTimeout ms => Some ms
          | _ => None
          end) t.

Definition engineConfigs (t : list DiscoveryRunner.Event)
  : list DiscoveryRunner.DiscoveryConfig :=
  omap (fun ev =>
          match ev with
          | DiscoveryRunner.EvEngineDiscover config => Some config
          | _ => None
          end) t.


(** The gauge updates of a trace, and its reads of a previous output. *)
Definition gaugeSets (t : list DiscoveryRunner.Event)
  : list (DiscoveryRunner.ProviderGauge * string * string * Q) :=
  omap (fun ev =>
          match ev with
          | DiscoveryRunner.EvGaugeSet gauge chain method v =>
              Some (gauge, chain, method, v)
          | _ => None
          end) t.

Definition discoveryReads (t : list DiscoveryRunner.Event)
  : list (string * string) :=
  omap (fun ev =>
          match ev with
          | DiscoveryRunner.EvReadDiscovery name chain => Some (name, chain)
          | _ => None
          end) t.

(** The arithmetic mean of a list of durations: their sum over their number. *)
Definition mean (durations : list Q) : Q :=
  (fold_right Qplus 0 durations / inject_Z (Z.of_nat (length durations)))%Q.

(** * Attempts of a run

    What the k-th entry into [discover] returns and does, read off the code by
    running it from an empty trace, and the value of [err] along a sequence of
    failed attempts. *)

Section Attempts.
Import DiscoveryRunner.
Context `{Collaborators}.

Definition attemptOutcome (config : DiscoveryConfig) (blockNumber : Z)
    (k : nat) : Result Thrown DiscoveryRunResult :=
  fst (discover config blockNumber {| calls := k; trace := [] |}).

Definition attemptEvents (config : DiscoveryConfig) (blockNumber : Z)
    (k : nat) : list Event :=
  trace (snd (discover config blockNumber {| calls := k; trace := [] |})).

(** [err] after the failures [e 0], ..., [e j] of a loop entered with [err]
    equal to [start]. *)
Fixpoint errAfter (start : option Thrown) (e : nat -> Thrown) (j : nat)
  : Thrown :=
  caught (match j with
          | O => start
          | S j' => Some (errAfter start e j')
          end) (e j).

(** [err] after the first [n] failures. *)
Definition errBefore (start : option Thrown) (e : nat -> Thrown) (n : nat)
  : option Thrown :=
  match n with
  | O => start
  | S n' => Some (errAfter start e n')
  end.

(** What the j-th failed iteration of the loop does when the text of its
    warning can be built: the attempt, the warning, the delay. *)
Definition failedIteration (config : DiscoveryConfig) (blockNumber delayMs : Z)
    (k0 : nat) (i0 : Z) (start : option Thrown) (e : nat -> Thrown) (j : nat)
  : list Event :=
  attemptEvents config blockNumber (k0 + j)
    ++ [EvWarn (retryMessage config (i0 + Z.of_nat j)
                  (errorString (errAfter start e j)));
        EvSetTimeout delayMs].

(** The gauge updates of one tier, and of the three tiers in source order. *)
Definition gaugeEvents (countGauge durationGauge : ProviderGauge)
    (stats : ProviderStats) (chain : string) : list Event :=
  flat_map
    (fun entry : string * Z =>
       [EvGaugeSet countGauge chain (fst entry)
          (inject_Z (count (stats (snd entry))));
        EvGaugeSet durationGauge chain (fst entry)
          (average (durations (stats (snd entry))))])
    ProviderMeasurement_entries.

Definition metricsEvents (stats : AllProviderStats) (chain : string)
  : list Event :=
  gaugeEvents lowLevelProviderCountGauge lowLevelProviderDurationGauge
    (lowLevelMeasurements stats) chain
  ++ gaugeEvents cacheProviderCountGauge cacheProviderDurationGauge
       (cacheMeasurements stats) chain
  ++ gaugeEvents highLevelProviderCountGauge highLevelProviderDurationGauge
       (highLevelMeasurements stats) chain.

End Attempts.

(** * A small concrete runtime, for evaluating the code on inputs *)

Module Sample.

Import ArbitrumDACKeyset DiscoveryRunner.

(** Thrown values: an [Error] object with its message (its own properties
    [stack] and [message] are not enumerable, so [JSON.stringify] prints it as
    an empty object), a [TypeError] object, a string, or [undefined]. *)
Inductive Value : Type :=
| ErrorObject (message : string)
| TypeErrorObject (message : string)
| StringValue (s : string)
| Undefined.

Definition runtime : JsRuntime := {|
  Thrown := Value;
  isError := fun v =>
    match v with
    | ErrorObject _ | TypeErrorObject _ => true
    | _ => false
    end;
  isNullish := fun v => match v with Undefined => true | _ => false end;
  newError := ErrorObject;
  newTypeError := TypeErrorObject;
  JSON_stringify := fun v =>
    match v with
    | ErrorObject _ | TypeErrorObject _ => "{}"
    | StringValue s =>
        String (ascii_of_nat 34) s +:+ String (ascii_of_nat 34) EmptyString
    | Undefined => EmptyString
    end;
  errorString := fun v =>
    match v with
    | ErrorObject m | TypeErrorObject m => "{ message: " +:+ m +:+ " }"
    | StringValue s => s
    | Undefined => EmptyString
    end;
  assertionError := fun m => ErrorObject ("Assertion Error: " +:+ default "" m);
  isError_newError := fun _ => eq_refl;
  isNullish_isError := fun v =>
    match v as v0
      return (match v0 with
              | ErrorObject _ | TypeErrorObject _ => true
              | _ => false
              end = true
              -> match v0 with Undefined => true | _ => false end = false)
    with
    | Undefined => fun E => eq_sym E
    | _ => fun _ => eq_refl
    end
|}.

(** An interface whose log data is the payload itself, byte per character. *)
Definition abi : @Abi runtime := {|
  decodeEventLog_keysetBytes := fun data => Ok (list_byte_of_string data);
  getEventTopic := "SetValidKeyset"
|}.

Definition logOf (payload : Bytes.t) : Log :=
  {| log_topics := ["SetValidKeyset"];
     log_data := string_of_list_byte payload |}.

Definition key48 (b : byte) : Bytes.t := replicate 48 b.

Definition threeKeys : list Bytes.t := [key48 x01; key48 x02; key48 x03].

(** A header announcing four members in front of three. *)
Definition overrunPayload : Bytes.t :=
  bigEndian 8 2 ++ bigEndian 8 4 ++ concat (map memberLayout threeKeys).

Definition stats : AllProviderStats := {|
  lowLevelMeasurements := fun index =>
    if index =? 0
    then {| count := 3; durations := [10#1; 20#1; 33#1]%Q |}
    else {| count := 2; durations := [] |};
  cacheMeasurements := fun _ => {| count := 0; durations := [] |};
  highLevelMeasurements := fun _ => {| count := 1; durations := [7#2]%Q |}
|}.

Definition previous : DiscoveryOutput := {|
  out_name := "project";
  out_chain := "ethereum";
  out_configHash := "0xhash";
  out_blockNumber := 100;
  contracts :=
    [ {| address := "0xaa"; contract_fields := JNull;
         contract_childAddresses := ["0xbb"] |};
      {| address := "0xbb"; contract_fields := JNull;
         contract_childAddresses := [] |} ]
|}.

(** Collaborators whose engine answers attempt [k] with [script k]. *)
Definition collaborators (script : nat -> Result (@Thrown runtime) unit)
  : @Collaborators runtime := {|
  Provider := unit;
  Analysis := unit;
  allProviders_get := fun _ _ _ => Ok tt;
  allProviders_getStats := fun _ _ => stats;
  discoveryEngine_discover := fun k _ _ => script k;
  configReader_readDiscovery := fun _ _ => Ok previous;
  config_hash := fun _ => "0xhash";
  toDiscoveryOutput := fun name chain hash blockNumber _ =>
    Ok {| out_name := name; out_chain := chain; out_configHash := hash;
          out_blockNumber := blockNumber; contracts := [] |};
  flattenDiscoveredSources := fun _ => Ok ∅;
  ProviderMeasurement_entries := [("CALL", 0); ("GET_STORAGE", 1)]
|}.

Definition alwaysFailing : nat -> Result (@Thrown runtime) unit :=
  fun _ => Throw (ErrorObject "boom").

(** Fails on the first [n] attempts, succeeds afterwards. *)
Definition failingFirst (n : nat) : nat -> Result (@Thrown runtime) unit :=
  fun k => if (k <? n)%nat then Throw (ErrorObject "boom") else Ok tt.

Definition config : DiscoveryConfig :=
  newDiscoveryConfig
    {| raw_name := "project";
       raw_chain := "ethereum";
       raw_initialAddresses := ["0xaa"];
       raw_maxAddresses := None;
       raw_maxDepth := Some 4;
       raw_others := {[ "names" := JObj [] ]} |}.

Definition runner : Runner := {| this_chain := "ethereum" |}.

(** The engine never succeeds. *)
Definition broken : @Collaborators runtime := collaborators alwaysFailing.


(** The engine succeeds at once. *)
Definition healthy : @Collaborators runtime := collaborators (failingFirst 0).

(** The engine fails once, then succeeds. *)
Definition hiccup : @Collaborators runtime := collaborators (failingFirst 1).

(** The engine throws an [Error], from then on it rejects with [undefined]
    [n] times, and succeeds afterwards. *)
Definition errorThenUndefined (n : nat) : nat -> Result (@Thrown runtime) unit :=
  fun k =>
    match k with
    | O => Throw (ErrorObject "boom")
    | S k' => if (k' <? n)%nat then Throw Undefined else Ok tt
    end.

(** One [Error], one [undefined], then success. *)
Definition interrupted : @Collaborators runtime :=
  collaborators (errorThenUndefined 1).

(** One [Error], then [undefined] on each of the next hundred attempts. *)
Definition rejecting : @Collaborators runtime :=
  collaborators (errorThenUndefined 100).

Definition start : World := {| calls := 0; trace := [] |}.

End Sample.

(** More concrete inputs: collaborators that fail outside the engine, and
    data for the activity controller. *)
Module SampleMore.

Import DiscoveryRunner Activity2Controller.

(** The previous output cannot be read. *)
Definition unreadable : @Collaborators Sample.runtime := {|
  Provider := unit;
  Analysis := unit;
  allProviders_get := fun _ _ _ => Ok tt;
  allProviders_getStats := fun _ _ => Sample.stats;
  discoveryEngine_discover := fun _ _ _ => Ok tt;
  configReader_readDiscovery := fun _ _ =>
    Throw (Sample.ErrorObject "ENOENT" : @Thrown Sample.runtime);
  config_hash := fun _ => "0xhash";
  toDiscoveryOutput := fun name chain hash blockNumber _ =>
    Ok {| out_name := name; out_chain := chain; out_configHash := hash;
          out_blockNumber := blockNumber; contracts := [] |};
  flattenDiscoveredSources := fun _ => Ok ∅;
  ProviderMeasurement_entries := [("CALL", 0); ("GET_STORAGE", 1)]
|}.

(** The engine returns, the conversion of its result throws. *)
Definition unconvertible : @Collaborators Sample.runtime := {|
  Provider := unit;
  Analysis := unit;
  allProviders_get := fun _ _ _ => Ok tt;
  allProviders_getStats := fun _ _ => Sample.stats;
  discoveryEngine_discover := fun _ _ _ => Ok tt;
  configReader_readDiscovery := fun _ _ => Ok Sample.previous;
  config_hash := fun _ => "0xhash";
  toDiscoveryOutput := fun _ _ _ _ _ =>
    Throw (Sample.ErrorObject "bad graph" : @Thrown Sample.runtime);
  flattenDiscoveredSources := fun _ => Ok ∅;
  ProviderMeasurement_entries := [("CALL", 0); ("GET_STORAGE", 1)]
|}.

Definition point (t c : Z) : DailyTransactionCount :=
  {| timestamp := t; count := c |}.

Definition projectChart : list DailyTransactionCount :=
  [point 86400 10; point 172800 20; point 259200 30].

Definition ethereumChart : list DailyTransactionCount :=
  [point 0 5; point 86400 100; point 172800 200; point 259200 300].

Definition layer2s : list Project :=
  [ {| project_id := "arbitrum"; display_slug := "arbitrum";
       config_transactionApi := Some "rpc" |};
    {| project_id := "zksync2"; display_slug := "zksync-era";
       config_transactionApi := None |} ].

Definition layer3s : list Project :=
  [ {| project_id := "xai"; display_slug := "xai";
       config_transactionApi := None |};
    {| project_id := "shadow"; display_slug := "arbitrum";
       config_transactionApi := None |} ].

Definition row (projectId : string) (t c : Z) : ActivityRecord :=
  {| record_projectId := projectId; record_timestamp := t;
     record_count := c |}.

Definition rows : list ActivityRecord :=
  [ row "ethereum" 172800 200; row "arbitrum" 172800 20;
    row "ethereum" 259200 300; row "arbitrum" 259200 30;
    row "stale" 0 1 ].

(** Stand-ins for the three helpers: the rows as counts, the first chart as
    the combined one, the points as the chart. *)
Definition postprocess (counts : list ActivityRecord) (synced : bool)
    (today : Z) : list DailyTransactionCount :=
  map (fun c => point (record_timestamp c) (record_count c)) counts.

Definition combine (m : JsMap (list DailyTransactionCount))
  : list DailyTransactionCount * unit :=
  match m with
  | [] => ([], tt)
  | (_, v) :: _ => (v, tt)
  end.

Definition format (data : list ActivityApiChartPoint)
  : list ActivityApiChartPoint := data.

Definition controllerIds : list string := ["ethereum"; "arbitrum"; "stale"].

Definition today : Z := 864000.

End SampleMore.

(** * Facts about byte strings *)

Lemma byteVal_range (b : byte) : 0 <= byteVal b < 256.
Proof.
  unfold byteVal. pose proof (Byte.to_N_bounded b). lia.
Qed.

Lemma byteVal_byteOfZ (z : Z) : 0 <= z < 256 -> byteVal (byteOfZ z) = z.
Proof.
  intros Hz. unfold byteVal, byteOfZ.
  destruct (Byte.of_N (Z.to_N z)) as [b|] eqn:E.
  - apply Byte.to_of_N in E. lia.
  - apply Byte.of_N_None_iff in E. lia.
Qed.

Lemma byteOfZ_byteVal (b : byte) : byteOfZ (byteVal b) = b.
Proof.
  unfold byteVal, byteOfZ. rewrite N2Z.id, Byte.of_to_N. reflexivity.
Qed.

Lemma toNumber_snoc (l : Bytes.t) (x : byte) :
  Bytes.toNumber (l ++ [x]) = Bytes.toNumber l * 256 + byteVal x.
Proof.
  unfold Bytes.toNumber. rewrite fold_left_app. reflexivity.
Qed.

Lemma toNumber_range (l : Bytes.t) :
  0 <= Bytes.toNumber l < 256 ^ Z.of_nat (length l).
Proof.
  induction l as [|x l IH] using rev_ind.
  - cbn. lia.
  - rewrite toNumber_snoc, length_app, Nat2Z.inj_add, Z.pow_add_r by lia.
    pose proof (byteVal_range x). cbn [length Z.of_nat Pos.of_succ_nat].
    change (256 ^ Z.pos 1) with 256. nia.
Qed.

Lemma length_bigEndian (w : nat) (n : Z) : length (bigEndian w n) = w.
Proof.
  revert n. induction w as [|w IH]; intros n; cbn [bigEndian].
  - reflexivity.
  - rewrite length_app, IH. cbn. lia.
Qed.

Lemma toNumber_bigEndian (w : nat) (n : Z) :
  0 <= n < 256 ^ Z.of_nat w -> Bytes.toNumber (bigEndian w n) = n.
Proof.
  revert n. induction w as [|w IH]; intros n Hn.
  - cbn in *. lia.
  - cbn [bigEndian]. rewrite toNumber_snoc.
    rewrite Nat2Z.inj_succ, Z.pow_succ_r in Hn by lia.
    rewrite IH, byteVal_byteOfZ.
    + pose proof (Z.div_mod n 256). lia.
    + apply Z.mod_pos_bound. lia.
    + split; [apply Z.div_pos; lia | apply Z.div_lt_upper_bound; lia].
Qed.

Lemma bigEndian_toNumber (l : Bytes.t) :
  bigEndian (length l) (Bytes.toNumber l) = l.
Proof.
  induction l as [|x l IH] using rev_ind.
  - reflexivity.
  - rewrite length_app, Nat.add_comm. cbn [length Nat.add bigEndian].
    rewrite toNumber_snoc. pose proof (byteVal_range x).
    replace ((Bytes.toNumber l * 256 + byteVal x) / 256)
      with (Bytes.toNumber l)
      by (apply Z.div_unique_pos with (r := byteVal x); lia).
    replace ((Bytes.toNumber l * 256 + byteVal x) mod 256)
      with (byteVal x)
      by (apply Z.mod_unique_pos with (q := Bytes.toNumber l); lia).
    rewrite IH, byteOfZ_byteVal. reflexivity.
Qed.

Lemma length_slice (b : Bytes.t) (s e : Z) :
  0 <= s -> s <= e -> e <= Bytes.length b ->
  Bytes.length (Bytes.slice b s e) = e - s.
Proof.
  unfold Bytes.length, Bytes.slice. intros Hs He Hb.
  rewrite length_take, length_drop. lia.
Qed.

Lemma length_slice_le (b : Bytes.t) (s e : Z) :
  0 <= s -> s < e ->
  Bytes.length (Bytes.slice b s e) = e - s -> e <= Bytes.length b.
Proof.
  unfold Bytes.length, Bytes.slice. intros Hs He.
  rewrite length_take, length_drop. lia.
Qed.

Lemma slice_app_mid (pre x post : Bytes.t) (s : Z) :
  s = Bytes.length pre ->
  Bytes.slice (pre ++ x ++ post) s (s + Bytes.length x) = x.
Proof.
  unfold Bytes.length, Bytes.slice. intros ->.
  rewrite Nat2Z.id, drop_app_length.
  replace (Z.to_nat _) with (length x) by lia.
  apply take_app_length.
Qed.

Lemma slice_split (b : Bytes.t) (s m e : Z) :
  0 <= s -> s <= m -> m <= e ->
  Bytes.slice b s e = Bytes.slice b s m ++ Bytes.slice b m e.
Proof.
  unfold Bytes.slice. intros Hs Hm He.
  replace (Z.to_nat (e - s)) with (Z.to_nat (m - s) + Z.to_nat (e - m))%nat
    by lia.
  rewrite <- take_take_drop, drop_drop.
  replace (Z.to_nat s + Z.to_nat (m - s))%nat with (Z.to_nat m) by lia.
  reflexivity.
Qed.

Lemma length_concat_members (keys : list Bytes.t) :
  Bytes.length (concat (map memberLayout keys))
  = fold_right (fun key acc => 2 + Bytes.length key + acc) 0 keys.
Proof.
  unfold Bytes.length. induction keys as [|key keys IH]; cbn [map concat fold_right].
  - reflexivity.
  - rewrite length_app. unfold memberLayout at 1.
    rewrite length_app, length_bigEndian. lia.
Qed.

(** * Facts about the keyset handler *)

Section KeysetLayout.
Import ArbitrumDACKeyset.
Context `{Abi}.

(** The loop run over a well laid out sequence of members reads exactly the
    keys, and leaves the cursor right behind them. *)
Lemma readMembers_layout (keys : list Bytes.t) :
  forall (pre post : Bytes.t) (acc : list string),
    Forall (fun key => Bytes.length key < 2 ^ 16) keys ->
    readMembers (pre ++ concat (map memberLayout keys) ++ post)
      (length keys) (Bytes.length pre) acc
    = (acc ++ map base64_encode keys,
       Bytes.length pre + Bytes.length (concat (map memberLayout keys))).
Proof.
  induction keys as [|key keys IH]; intros pre post acc Hkeys.
  - cbn. rewrite app_nil_r. f_equal. unfold Bytes.length. cbn. lia.
  - inversion Hkeys as [|? ? Hkey Hrest]; subst.
    cbn [length readMembers map concat].
    set (buf := pre ++ (memberLayout key ++ concat (map memberLayout keys)) ++ post).
    assert (Hsize : Bytes.slice buf (Bytes.length pre) (Bytes.length pre + 2)
                    = bigEndian 2 (Bytes.length key)).
    { subst buf. unfold memberLayout at 1.
      rewrite <- !app_assoc.
      change 2 with (Bytes.length (bigEndian 2 (Bytes.length key))) at 1.
      apply slice_app_mid. reflexivity. }
    rewrite Hsize, toNumber_bigEndian
      by (unfold Bytes.length in *; change (256 ^ Z.of_nat 2) with (2 ^ 16); lia).
    assert (Hkeybytes :
              Bytes.slice buf (Bytes.length pre + 2)
                (Bytes.length pre + 2 + Bytes.length key) = key).
    { subst buf. unfold memberLayout at 1.
      rewrite <- !app_assoc, (app_assoc pre).
      apply slice_app_mid. unfold Bytes.length.
      rewrite length_app, length_bigEndian. lia. }
    rewrite Hkeybytes.
    replace buf with ((pre ++ memberLayout key)
                        ++ concat (map memberLayout keys) ++ post)
      by (subst buf; rewrite <- !app_assoc; reflexivity).
    replace (Bytes.length pre + 2 + Bytes.length key)
      with (Bytes.length (pre ++ memberLayout key))
      by (unfold Bytes.length, memberLayout;
          rewrite !length_app, length_bigEndian; lia).
    rewrite IH by assumption.
    rewrite <- app_assoc. f_equal.
    unfold Bytes.length, memberLayout.
    rewrite !length_app, length_bigEndian. lia.
Qed.

Lemma decodeKeysetBytes_layout (a : Z) (keys : list Bytes.t) :
  0 <= a < 2 ^ 64 ->
  Z.of_nat (length keys) < 2 ^ 64 ->
  Forall (fun key => Bytes.length key < 2 ^ 16) keys ->
  decodeKeysetBytes (keysetLayout a keys)
  = Ok {| requiredSignatures := Z.of_nat (length keys) - a + 1;
          membersCount := Z.of_nat (length keys);
          blsSignatures := map base64_encode keys |}
  /\ finalHead (keysetLayout a keys)
     = 16 + fold_right (fun key acc => 2 + Bytes.length key + acc) 0 keys.
Proof.
  intros Ha Hn Hkeys.
  set (n := Z.of_nat (length keys)) in *.
  assert (Hs0 : Bytes.slice (keysetLayout a keys) 0 8 = bigEndian 8 a).
  { unfold keysetLayout.
    exact (slice_app_mid [] (bigEndian 8 a)
             (bigEndian 8 n ++ concat (map memberLayout keys)) 0 eq_refl). }
  assert (Hs8 : Bytes.slice (keysetLayout a keys) 8 16 = bigEndian 8 n).
  { unfold keysetLayout.
    exact (slice_app_mid (bigEndian 8 a) (bigEndian 8 n)
             (concat (map memberLayout keys)) 8 eq_refl). }
  assert (Hloop :
            readMembers (keysetLayout a keys) (length keys) 16 []
            = (map base64_encode keys, Bytes.length (keysetLayout a keys))).
  { unfold keysetLayout. rewrite app_assoc.
    replace (concat (map memberLayout keys))
      with (concat (map memberLayout keys) ++ []) at 1 by apply app_nil_r.
    change 16 with (Bytes.length (bigEndian 8 a ++ bigEndian 8 n)) at 1.
    rewrite readMembers_layout by assumption.
    cbn [app]. f_equal. unfold Bytes.length.
    rewrite !length_app, !length_bigEndian. lia. }
  assert (Hto : Z.to_nat n = length keys) by (subst n; lia).
  split.
  - unfold decodeKeysetBytes.
    rewrite Hs0, Hs8, !toNumber_bigEndian
      by (change (256 ^ Z.of_nat 8) with (2 ^ 64); subst n; lia).
    rewrite Hto, Hloop, Z.eqb_refl. reflexivity.
  - unfold finalHead.
    rewrite Hs8, toNumber_bigEndian
      by (change (256 ^ Z.of_nat 8) with (2 ^ 64); subst n; lia).
    rewrite Hto, Hloop. cbn [snd].
    unfold keysetLayout, Bytes.length. rewrite !length_app, !length_bigEndian.
    rewrite <- length_concat_members. unfold Bytes.length. lia.
Qed.

End KeysetLayout.

Section KeysetInversion.
Import ArbitrumDACKeyset.
Context `{Abi}.

(** The cursor never moves backwards. *)
Lemma readMembers_head_le (buf : Bytes.t) (n : nat) :
  forall (head : Z) (acc : list string),
    head <= snd (readMembers buf n head acc).
Proof.
  induction n as [|n IH]; intros head acc; cbn [readMembers snd].
  - lia.
  - etransitivity; [|apply IH].
    pose proof (toNumber_range (Bytes.slice buf head (head + 2))). lia.
Qed.


(** A loop that ends inside the buffer has read a well laid out sequence of
    members: nothing was cut short and nothing was made up. *)
Lemma readMembers_inside (buf : Bytes.t) (n : nat) :
  forall (head : Z) (acc : list string),
    0 <= head ->
    snd (readMembers buf n head acc) <= Bytes.length buf ->
    exists keys : list Bytes.t,
      length keys = n
      /\ Forall (fun key => Bytes.length key < 2 ^ 16) keys
      /\ Bytes.slice buf head (snd (readMembers buf n head acc))
         = concat (map memberLayout keys)
      /\ fst (readMembers buf n head acc) = acc ++ map base64_encode keys.
Proof.
  induction n as [|n IH]; intros head acc Hhead Hend.
  - exists []. cbn. repeat split; [constructor| |symmetry; apply app_nil_r].
    unfold Bytes.slice. rewrite Z.sub_diag. reflexivity.
  - cbn [readMembers] in *.
    set (size := Bytes.toNumber (Bytes.slice buf head (head + 2))) in *.
    set (key := Bytes.slice buf (head + 2) (head + 2 + size)) in *.
    pose proof (toNumber_range (Bytes.slice buf head (head + 2))) as Hsize.
    fold size in Hsize.
    pose proof (readMembers_head_le buf n (head + 2 + size)
                  (acc ++ [base64_encode key])) as Hmono.
    destruct (IH (head + 2 + size) (acc ++ [base64_encode key]))
      as (keys & Hlen & Hall & Hslice & Hsigs); [lia | assumption |].
    assert (Hlen2 : Bytes.length (Bytes.slice buf head (head + 2)) = 2)
      by (rewrite length_slice; lia).
    assert (Hlenkey : Bytes.length key = size)
      by (subst key; rewrite length_slice; lia).
    exists (key :: keys). repeat split.
    + cbn. lia.
    + constructor; [|assumption].
      rewrite Hlenkey. unfold Bytes.length in Hlen2.
      replace (length (Bytes.slice buf head (head + 2))) with 2%nat in Hsize
        by lia.
      change (256 ^ Z.of_nat 2) with (2 ^ 16) in Hsize. lia.
    + rewrite (slice_split buf head (head + 2 + size)) by lia.
      rewrite Hslice. cbn [map concat]. f_equal.
      unfold memberLayout.
      rewrite (slice_split buf head (head + 2)) by lia.
      fold key. f_equal. rewrite Hlenkey. subst size.
      rewrite <- (bigEndian_toNumber (Bytes.slice buf head (head + 2))) at 1.
      f_equal. unfold Bytes.length in Hlen2. lia.
    + rewrite Hsigs, <- app_assoc. reflexivity.
Qed.

(** What a successful decode says about the payload. *)
Lemma decodeKeysetBytes_Ok (payload : Bytes.t) (k : Keyset) :
  decodeKeysetBytes payload = Ok k ->
  finalHead payload = Bytes.length payload
  /\ exists (a : Z) (keys : list Bytes.t),
       payload = keysetLayout a keys
       /\ 0 <= a < 2 ^ 64
       /\ Forall (fun key => Bytes.length key < 2 ^ 16) keys
       /\ k = {| requiredSignatures := Z.of_nat (length keys) - a + 1;
                 membersCount := Z.of_nat (length keys);
                 blsSignatures := map base64_encode keys |}.
Proof.
  unfold decodeKeysetBytes, finalHead, assert.
  set (n := Bytes.toNumber (Bytes.slice payload 8 16)).
  destruct (readMembers payload (Z.to_nat n) 16 []) as [sigs head] eqn:Eloop.
  cbn [snd].
  destruct (head =? Bytes.length payload) eqn:Ehead; [|discriminate].
  apply Z.eqb_eq in Ehead. intros [= <-]. split; [assumption|].
  pose proof (readMembers_head_le payload (Z.to_nat n) 16 []) as Hmono.
  destruct (readMembers_inside payload (Z.to_nat n) 16 [])
    as (keys & Hlen & Hall & Hslice & Hsigs);
    [lia | rewrite Eloop; cbn [snd]; lia |].
  rewrite Eloop in Hmono, Hslice, Hsigs. cbn [fst snd app] in *.
  pose proof (toNumber_range (Bytes.slice payload 8 16)) as Hn. fold n in Hn.
  exists (Bytes.toNumber (Bytes.slice payload 0 8)), keys.
  assert (Hl0 : Bytes.length (Bytes.slice payload 0 8) = 8)
    by (rewrite length_slice; lia).
  assert (Hl8 : Bytes.length (Bytes.slice payload 8 16) = 8)
    by (rewrite length_slice; lia).
  assert (Hnk : Z.of_nat (length keys) = n) by lia.
  repeat split.
  - unfold keysetLayout. rewrite Hnk.
    transitivity (Bytes.slice payload 0 (Bytes.length payload)).
    { unfold Bytes.slice, Bytes.length. rewrite Z.sub_0_r, Nat2Z.id.
      cbn [Z.to_nat drop]. symmetry. apply take_ge. lia. }
    rewrite (slice_split payload 0 8) by lia.
    rewrite (slice_split payload 8 16) by lia.
    rewrite <- Ehead, Hslice. f_equal; [|f_equal].
    + rewrite <- (bigEndian_toNumber (Bytes.slice payload 0 8)) at 1.
      f_equal. unfold Bytes.length in Hl0. lia.
    + subst n.
      rewrite <- (bigEndian_toNumber (Bytes.slice payload 8 16)) at 1.
      f_equal. unfold Bytes.length in Hl8. lia.
  - apply toNumber_range.
  - pose proof (toNumber_range (Bytes.slice payload 0 8)) as Ha.
    unfold Bytes.length in Hl0.
    replace (length (Bytes.slice payload 0 8)) with 8%nat in Ha by lia.
    change (256 ^ Z.of_nat 8) with (2 ^ 64) in Ha. lia.
  - assumption.
  - rewrite Hnk, Hsigs. reflexivity.
Qed.

End KeysetInversion.

Section KeysetClaims.
Import ArbitrumDACKeyset.
Context `{Abi}.

Lemma decodeLastEvent_snoc (earlier : list Log) (lastEvent : Log) :
  decodeLastEvent (earlier ++ [lastEvent])
  = match decodeEventLog_keysetBytes (log_data lastEvent) with
    | Throw e => Throw e
    | Ok keysetBytes => decodeKeysetBytes keysetBytes
    end.
Proof.
  unfold decodeLastEvent. rewrite last_snoc, length_app.
  cbn [length]. rewrite Nat.add_comm. reflexivity.
Qed.

Lemma decodeKeysetBytes_mismatch (payload : Bytes.t) :
  finalHead payload <> Bytes.length payload ->
  decodeKeysetBytes payload = Throw (assertionError None).
Proof.
  unfold decodeKeysetBytes, finalHead, assert.
  destruct (readMembers payload _ 16 []) as [sigs head]. cbn [snd].
  intros Hne. apply Z.eqb_neq in Hne. rewrite Hne. reflexivity.
Qed.

(** C1: for a non-empty list of logs only the last one is decoded; when its
    payload is laid out as the specification describes (8 bytes big-endian
    assumed-honest count, 8 bytes big-endian member count, then per member a
    2-byte big-endian length and the key), with an assumed-honest count below
    2^53 (where the numbers of the code are exact) and fewer than 2^32
    members (what the array of signatures can hold), the handler's value has
    [membersCount] the number of keys, [requiredSignatures = membersCount -
    assumedHonest + 1] and the base64 text of every key in order, and the
    cursor has advanced by [2 + length] per member. *)
Theorem decodeLastEvent_decodes_last_log
    (earlier : list Log) (lastEvent : Log)
    (assumedHonest : Z) (keys : list Bytes.t)
    (fld address : string) (provider : IProvider) :
  0 <= assumedHonest < 2 ^ 53 ->
  Z.of_nat (length keys) < 2 ^ 32 ->
  Forall (fun key => Bytes.length key < 2 ^ 16) keys ->
  decodeEventLog_keysetBytes (log_data lastEvent)
  = Ok (keysetLayout assumedHonest keys) ->
  getLogs provider address [[getEventTopic]] = Ok (earlier ++ [lastEvent]) ->
  decodeLastEvent (earlier ++ [lastEvent]) = decodeLastEvent [lastEvent]
  /\ decodeLastEvent (earlier ++ [lastEvent])
     = Ok {| requiredSignatures := Z.of_nat (length keys) - assumedHonest + 1;
             membersCount := Z.of_nat (length keys);
             blsSignatures := map base64_encode keys |}
  /\ finalHead (keysetLayout assumedHonest keys)
     = 16 + fold_right (fun key acc => 2 + Bytes.length key + acc) 0 keys
  /\ snd (execute fld provider address)
     = Ok {| field := fld;
             value :=
               {| requiredSignatures :=
                    Z.of_nat (length keys) - assumedHonest + 1;
                  membersCount := Z.of_nat (length keys);
                  blsSignatures := map base64_encode keys |} |}.
Proof.
  intros Ha Hn Hkeys Hdecode Hlogs.
  assert (Ha' : 0 <= assumedHonest < 2 ^ 64) by lia.
  assert (Hn' : Z.of_nat (length keys) < 2 ^ 64) by lia.
  destruct (decodeKeysetBytes_layout assumedHonest keys Ha' Hn' Hkeys)
    as [Hok Hhead].
  assert (Hlast : decodeLastEvent (earlier ++ [lastEvent])
                  = Ok {| requiredSignatures :=
                            Z.of_nat (length keys) - assumedHonest + 1;
                          membersCount := Z.of_nat (length keys);
                          blsSignatures := map base64_encode keys |})
    by (rewrite decodeLastEvent_snoc, Hdecode; exact Hok).
  repeat split.
  - rewrite decodeLastEvent_snoc. symmetry.
    exact (decodeLastEvent_snoc [] lastEvent).
  - exact Hlast.
  - exact Hhead.
  - unfold execute. rewrite Hlogs, Hlast. reflexivity.
Qed.

(** C4: with no event logs the handler does not fail; the value of its field
    is [{requiredSignatures: 0, membersCount: 0, blsSignatures: []}]. *)
Theorem execute_no_logs
    (fld address : string) (provider : IProvider) :
  getLogs provider address [[getEventTopic]] = Ok [] ->
  decodeLastEvent [] =
    Ok {| requiredSignatures := 0; membersCount := 0; blsSignatures := [] |}
  /\ snd (execute fld provider address)
     = Ok {| field := fld;
             value := {| requiredSignatures := 0;
                         membersCount := 0;
                         blsSignatures := [] |} |}.
Proof.
  intros Hlogs. split; [reflexivity|].
  unfold execute. rewrite Hlogs. reflexivity.
Qed.


End KeysetClaims.


(** * Facts about the discovery runner *)

Section RunnerFacts.
Import DiscoveryRunner.
Context `{Collaborators}.

Lemma warnings_app (t1 t2 : list Event) :
  warnings (t1 ++ t2) = warnings t1 ++ warnings t2.
Proof. apply omap_app. Qed.

Lemma delays_app (t1 t2 : list Event) :
  delays (t1 ++ t2) = delays t1 ++ delays t2.
Proof. apply omap_app. Qed.

Lemma engineConfigs_app (t1 t2 : list Event) :
  engineConfigs (t1 ++ t2) = engineConfigs t1 ++ engineConfigs t2.
Proof. apply omap_app. Qed.

(** ** The metrics *)

Lemma setProviderGaugeEntries_run (entries : list (string * Z))
    (countGauge durationGauge : ProviderGauge) (stats : ProviderStats)
    (chain : string) :
  forall w : World,
    setProviderGaugeEntries entries countGauge durationGauge stats chain w
    = (Ok tt,
       {| calls := calls w;
          trace := trace w
            ++ flat_map
                 (fun entry : string * Z =>
                    [EvGaugeSet countGauge chain (fst entry)
                       (inject_Z (count (stats (snd entry))));
                     EvGaugeSet durationGauge chain (fst entry)
                       (average (durations (stats (snd entry))))])
                 entries |}).
Proof.
  induction entries as [|[key index] entries IH]; intros w.
  - cbn. rewrite app_nil_r. destruct w; reflexivity.
  - cbn [setProviderGaugeEntries flat_map fst snd].
    unfold bind, emit at 1 2. rewrite IH. cbn [calls trace].
    rewrite <- !app_assoc. reflexivity.
Qed.

Lemma setDiscoveryMetrics_run (stats : AllProviderStats) (chain : string)
    (w : World) :
  setDiscoveryMetrics stats chain w
  = (Ok tt,
     {| calls := calls w; trace := trace w ++ metricsEvents stats chain |}).
Proof.
  unfold setDiscoveryMetrics, setProviderGauge, bind.
  rewrite !setProviderGaugeEntries_run. cbn [calls trace].
  unfold metricsEvents, gaugeEvents. rewrite <- !app_assoc. reflexivity.
Qed.

Lemma metricsEvents_quiet (stats : AllProviderStats) (chain : string) :
  warnings (metricsEvents stats chain) = []
  /\ delays (metricsEvents stats chain) = []
  /\ engineConfigs (metricsEvents stats chain) = [].
Proof.
  unfold metricsEvents, gaugeEvents.
  rewrite !warnings_app, !delays_app, !engineConfigs_app.
  induction ProviderMeasurement_entries as [|entry entries IH].
  - repeat split; reflexivity.
  - destruct IH as (IHw & IHd & IHe). cbn [flat_map app].
    repeat split; cbn; assumption.
Qed.

(** ** One attempt *)

(** The events of an attempt, stage by stage. *)
Lemma attemptEvents_stages (config : DiscoveryConfig) (blockNumber : Z)
    (k : nat) :
  attemptEvents config blockNumber k
  = EvGetProvider (config_chain config) blockNumber
    :: match allProviders_get k (config_chain config) blockNumber with
       | Throw _ => []
       | Ok provider =>
           EvEngineDiscover config
           :: match discoveryEngine_discover k provider config with
              | Throw _ => []
              | Ok result =>
                  metricsEvents
                    (allProviders_getStats k (config_chain config))
                    (config_chain config)
                  ++ EvToDiscoveryOutput
                  :: match toDiscoveryOutput (config_name config)
                             (config_chain config) (config_hash config)
                             blockNumber result with
                     | Throw _ => []
                     | Ok _ => [EvFlattenSources]
                     end
              end
       end.
Proof.
  unfold attemptEvents, discover, bind, enter, call. cbn [calls trace app].
  destruct (allProviders_get k _ _) as [provider|]; [|reflexivity].
  destruct (discoveryEngine_discover k provider config) as [result|];
    [|reflexivity].
  rewrite setDiscoveryMetrics_run. cbn [calls trace app].
  destruct (toDiscoveryOutput _ _ _ _ result) as [output|];
    [|cbn; rewrite <- ?app_assoc; reflexivity].
  destruct (flattenDiscoveredSources result);
    cbn; rewrite <- ?app_assoc; reflexivity.
Qed.

Lemma attemptOutcome_stages (config : DiscoveryConfig) (blockNumber : Z)
    (k : nat) :
  attemptOutcome config blockNumber k
  = match allProviders_get k (config_chain config) blockNumber with
    | Throw e => Throw e
    | Ok provider =>
        match discoveryEngine_discover k provider config with
        | Throw e => Throw e
        | Ok result =>
            match toDiscoveryOutput (config_name config)
                    (config_chain config) (config_hash config)
                    blockNumber result with
            | Throw e => Throw e
            | Ok output =>
                match flattenDiscoveredSources result with
                | Throw e => Throw e
                | Ok flat =>
                    Ok {| discovery := output; flatSources := flat |}
                end
            end
        end
    end.
Proof.
  unfold attemptOutcome, discover, bind, enter, call. cbn [calls trace app].
  destruct (allProviders_get k _ _) as [provider|]; [|reflexivity].
  destruct (discoveryEngine_discover k provider config) as [result|];
    [|reflexivity].
  rewrite setDiscoveryMetrics_run. cbn [calls trace app].
  destruct (toDiscoveryOutput _ _ _ _ result) as [output|]; [|reflexivity].
  destruct (flattenDiscoveredSources result); reflexivity.
Qed.

(** Running [discover] in any world: the outcome and events of the attempt
    whose index is the number of earlier entries. *)
Lemma discover_run (config : DiscoveryConfig) (blockNumber : Z) (w : World) :
  discover config blockNumber w
  = (attemptOutcome config blockNumber (calls w),
     {| calls := S (calls w);
        trace := trace w ++ attemptEvents config blockNumber (calls w) |}).
Proof.
  rewrite attemptOutcome_stages, attemptEvents_stages.
  unfold discover, bind, enter, call. cbn [calls trace].
  destruct (allProviders_get _ _ _) as [provider|]; [|reflexivity].
  destruct (discoveryEngine_discover _ provider config) as [result|];
    [|rewrite <- app_assoc; reflexivity].
  rewrite setDiscoveryMetrics_run. cbn [calls trace].
  destruct (toDiscoveryOutput _ _ _ _ result) as [output|];
    [|f_equal; f_equal; rewrite <- ?app_assoc; reflexivity].
  destruct (flattenDiscoveredSources result);
    f_equal; f_equal; rewrite <- ?app_assoc; reflexivity.
Qed.

(** An attempt neither warns nor waits, and hands the engine the
    configuration it was given. *)
Lemma attemptEvents_quiet (config : DiscoveryConfig) (blockNumber : Z)
    (k : nat) :
  warnings (attemptEvents config blockNumber k) = []
  /\ delays (attemptEvents config blockNumber k) = []
  /\ Forall (fun c => c = config)
       (engineConfigs (attemptEvents config blockNumber k)).
Proof.
  rewrite attemptEvents_stages.
  destruct (allProviders_get k _ _) as [provider|];
    [|repeat split; constructor].
  destruct (discoveryEngine_discover k provider config) as [result|];
    [|repeat split; repeat constructor].
  destruct (metricsEvents_quiet
              (allProviders_getStats k (config_chain config))
              (config_chain config)) as (Hw & Hd & He).
  change (EvGetProvider (config_chain config) blockNumber
          :: EvEngineDiscover config :: ?t)
    with ([EvGetProvider (config_chain config) blockNumber;
           EvEngineDiscover config] ++ t).
  rewrite !warnings_app, !delays_app, !engineConfigs_app, Hw, Hd, He.
  destruct (toDiscoveryOutput _ _ _ _ result);
    repeat split; repeat constructor.
Qed.

(** A successful attempt ends with the flattening of the sources. *)
Lemma attemptEvents_Ok_last (config : DiscoveryConfig) (blockNumber : Z)
    (k : nat) (r : DiscoveryRunResult) :
  attemptOutcome config blockNumber k = Ok r ->
  last (attemptEvents config blockNumber k) = Some EvFlattenSources.
Proof.
  rewrite attemptOutcome_stages, attemptEvents_stages.
  destruct (allProviders_get k _ _) as [provider|]; [|discriminate].
  destruct (discoveryEngine_discover k provider config) as [result|];
    [|discriminate].
  destruct (toDiscoveryOutput _ _ _ _ result) as [output|]; [|discriminate].
  intros _. rewrite !last_cons, last_app. reflexivity.
Qed.

(** ** The retry loop *)

Lemma errAfter_unfold (start : option Thrown) (e : nat -> Thrown) (j : nat) :
  errAfter start e j = caught (errBefore start e j) (e j).
Proof. destruct j; reflexivity. Qed.

Lemma caught_cases (err : option Thrown) (error : Thrown) :
  caught err error = error
  \/ caught err error = newError (JSON_stringify error).
Proof. unfold caught. destruct (match err with Some _ => _ | None => _ end); auto. Qed.

Lemma isNullish_newError (s : string) : isNullish (newError s) = false.
Proof. apply isNullish_isError, isError_newError. Qed.

(** The recorded error is [null] or [undefined] only when the value caught
    is. *)
Lemma caught_nullish (err : option Thrown) (error : Thrown) :
  isNullish (caught err error) = true -> isNullish error = true.
Proof.
  destruct (caught_cases err error) as [-> | ->]; [auto|].
  rewrite isNullish_newError. discriminate.
Qed.

Lemma getOwnPropertyNames_Ok (value : Thrown) :
  isNullish value = false -> getOwnPropertyNames value = Ok tt.
Proof. unfold getOwnPropertyNames. intros ->. reflexivity. Qed.

Lemma getOwnPropertyNames_Throw (value e : Thrown) :
  getOwnPropertyNames value = Throw e ->
  isNullish value = true
  /\ e = newTypeError "Cannot convert undefined or null to object".
Proof.
  unfold getOwnPropertyNames.
  destruct (isNullish value); [intros [= <-]; auto | discriminate].
Qed.

(** [a + b] iterations are [a] iterations and, unless they ended with a
    result, [b] more. *)
Lemma retryLoop_add (config : DiscoveryConfig) (blockNumber delayMs : Z)
    (a b : nat) :
  forall (i : Z) (err : option Thrown) (w : World),
    retryLoop config blockNumber delayMs (a + b) i err w
    = match retryLoop config blockNumber delayMs a i err w with
      | (Ok (None, err'), w') =>
          retryLoop config blockNumber delayMs b (i + Z.of_nat a) err' w'
      | other => other
      end.
Proof.
  induction a as [|a IH]; intros i err w.
  - cbn. rewrite Z.add_0_r. reflexivity.
  - cbn [Nat.add retryLoop].
    destruct (discover config blockNumber w) as [[result|error] w1];
      [reflexivity|].
    destruct (getOwnPropertyNames (caught err error)); [|reflexivity].
    unfold bind, emit. rewrite IH.
    replace (i + 1 + Z.of_nat a) with (i + Z.of_nat (S a)) by lia.
    reflexivity.
Qed.

(** A run of [n] failed iterations, none of which records [null] or
    [undefined]. *)
Lemma retryLoop_failures (config : DiscoveryConfig) (blockNumber delayMs : Z)
    (i : Z) (err : option Thrown) (w : World) (e : nat -> Thrown) (n : nat) :
  (forall j : nat,
      (j < n)%nat ->
      attemptOutcome config blockNumber (calls w + j) = Throw (e j)) ->
  (forall j : nat, (j < n)%nat -> isNullish (errAfter err e j) = false) ->
  retryLoop config blockNumber delayMs n i err w
  = (Ok (None, errBefore err e n),
     {| calls := calls w + n;
        trace := trace w
          ++ flat_map
               (failedIteration config blockNumber delayMs (calls w) i err e)
               (seq 0 n) |}).
Proof.
  induction n as [|n IH]; intros Hfail Hshown.
  - cbn. rewrite app_nil_r, Nat.add_0_r. destruct w; reflexivity.
  - replace (S n) with (n + 1)%nat at 1 by lia.
    rewrite retryLoop_add, IH
      by (intros j Hj; (apply Hfail || apply Hshown); lia).
    cbn [retryLoop]. rewrite discover_run. cbn [calls trace].
    rewrite Hfail by lia.
    rewrite <- errAfter_unfold, getOwnPropertyNames_Ok by (apply Hshown; lia).
    unfold bind, emit, ret. cbn [calls trace errBefore].
    f_equal. f_equal; [lia|].
    rewrite seq_S, flat_map_app. cbn [flat_map Nat.add].
    unfold failedIteration at 3. rewrite errAfter_unfold, app_nil_r.
    rewrite <- !app_assoc. reflexivity.
Qed.

Lemma failedIterations_warnings (config : DiscoveryConfig)
    (blockNumber delayMs : Z) (k0 : nat) (i0 : Z) (start : option Thrown)
    (e : nat -> Thrown) (l : list nat) :
  warnings (flat_map
              (failedIteration config blockNumber delayMs k0 i0 start e) l)
  = map (fun j => retryMessage config (i0 + Z.of_nat j)
                    (errorString (errAfter start e j))) l.
Proof.
  induction l as [|j l IH]; [reflexivity|].
  cbn [flat_map map]. rewrite warnings_app, IH.
  unfold failedIteration. rewrite warnings_app.
  destruct (attemptEvents_quiet config blockNumber (k0 + j)) as (-> & _).
  reflexivity.
Qed.

Lemma failedIterations_delays (config : DiscoveryConfig)
    (blockNumber delayMs : Z) (k0 : nat) (i0 : Z) (start : option Thrown)
    (e : nat -> Thrown) (l : list nat) :
  delays (flat_map
            (failedIteration config blockNumber delayMs k0 i0 start e) l)
  = replicate (length l) delayMs.
Proof.
  induction l as [|j l IH]; [reflexivity|].
  cbn [flat_map length replicate]. rewrite delays_app, IH.
  unfold failedIteration. rewrite delays_app.
  destruct (attemptEvents_quiet config blockNumber (k0 + j)) as (_ & -> & _).
  reflexivity.
Qed.

(** Attempts [0 .. n-1] fail, attempt [n] succeeds, and the budget allows
    it. *)
Lemma discoverWithRetry_success (config : DiscoveryConfig) (blockNumber : Z)
    (maxRetries delayMs : option Z) (w : World) (e : nat -> Thrown)
    (n : nat) (r : DiscoveryRunResult) :
  Z.of_nat n <= default MAX_RETRIES maxRetries ->
  (forall j : nat,
      (j < n)%nat ->
      attemptOutcome config blockNumber (calls w + j) = Throw (e j)) ->
  (forall j : nat, (j < n)%nat -> isNullish (errAfter None e j) = false) ->
  attemptOutcome config blockNumber (calls w + n) = Ok r ->
  discoverWithRetry config blockNumber maxRetries delayMs w
  = (Ok r,
     {| calls := calls w + n + 1;
        trace := trace w
          ++ flat_map
               (failedIteration config blockNumber
                  (default RETRY_DELAY_MS delayMs) (calls w) 0 None e)
               (seq 0 n)
          ++ attemptEvents config blockNumber (calls w + n) |}).
Proof.
  intros Hbudget Hfail Hshown Hok. unfold discoverWithRetry, bind.
  replace (Z.to_nat (default MAX_RETRIES maxRetries + 1))
    with (n + S (Z.to_nat (default MAX_RETRIES maxRetries) - n))%nat by lia.
  rewrite retryLoop_add, (retryLoop_failures _ _ _ _ _ _ e) by assumption.
  cbn [retryLoop]. rewrite discover_run. cbn [calls trace].
  rewrite Hok. unfold ret. f_equal. f_equal; [lia|].
  rewrite <- app_assoc. reflexivity.
Qed.

(** Every attempt the budget allows fails, and none records [null] or
    [undefined]. *)
Lemma discoverWithRetry_failure (config : DiscoveryConfig) (blockNumber : Z)
    (maxRetries delayMs : option Z) (w : World) (e : nat -> Thrown) :
  0 <= default MAX_RETRIES maxRetries ->
  (forall j : nat,
      (j <= Z.to_nat (default MAX_RETRIES maxRetries))%nat ->
      attemptOutcome config blockNumber (calls w + j) = Throw (e j)) ->
  (forall j : nat,
      (j <= Z.to_nat (default MAX_RETRIES maxRetries))%nat ->
      isNullish (errAfter None e j) = false) ->
  discoverWithRetry config blockNumber maxRetries delayMs w
  = (Throw (errAfter None e (Z.to_nat (default MAX_RETRIES maxRetries))),
     {| calls := calls w + S (Z.to_nat (default MAX_RETRIES maxRetries));
        trace := trace w
          ++ flat_map
               (failedIteration config blockNumber
                  (default RETRY_DELAY_MS delayMs) (calls w) 0 None e)
               (seq 0 (S (Z.to_nat (default MAX_RETRIES maxRetries)))) |}).
Proof.
  intros Hm Hfail Hshown. unfold discoverWithRetry, bind.
  replace (Z.to_nat (default MAX_RETRIES maxRetries + 1))
    with (S (Z.to_nat (default MAX_RETRIES maxRetries))) by lia.
  rewrite (retryLoop_failures _ _ _ _ _ _ e)
    by (intros j Hj; (apply Hfail || apply Hshown); lia).
  reflexivity.
Qed.

(** What every run of the loop does, whatever the attempts return.  A loop
    left with a result ends with that attempt, after one delay per failed
    attempt; a loop left without one has used all its iterations, each
    followed by a delay; a loop left by the [TypeError] of
    [Object.getOwnPropertyNames] ends with an attempt that threw [null] or
    [undefined], and no delay follows that attempt. *)
Lemma retryLoop_shape (config : DiscoveryConfig) (blockNumber delayMs : Z)
    (n : nat) :
  forall (i : Z) (err : option Thrown) (w : World),
  exists (outcome : Result Thrown (option DiscoveryRunResult * option Thrown))
         (w' : World) (evs : list Event),
    retryLoop config blockNumber delayMs n i err w = (outcome, w')
    /\ trace w' = trace w ++ evs
    /\ Forall (fun c => c = config) (engineConfigs evs)
    /\ match outcome with
       | Ok (Some _, _) =>
           (calls w < calls w')%nat
           /\ delays evs = replicate (calls w' - calls w - 1) delayMs
           /\ last evs = Some EvFlattenSources
       | Ok (None, err') =>
           calls w' = (calls w + n)%nat
           /\ delays evs = replicate n delayMs
           /\ (n = O /\ evs = [] /\ err' = err
               \/ last evs = Some (EvSetTimeout delayMs)
                  /\ exists x, err' = Some x)
       | Throw _ =>
           (calls w < calls w')%nat
           /\ delays evs = replicate (calls w' - calls w - 1) delayMs
           /\ exists error : Thrown,
                attemptOutcome config blockNumber (calls w' - 1) = Throw error
                /\ isNullish error = true
       end.
Proof.
  induction n as [|n IH]; intros i err w.
  - exists (Ok (None, err)), w, []. cbn. rewrite app_nil_r.
    repeat split; auto.
  - cbn [retryLoop]. rewrite discover_run.
    destruct (attemptEvents_quiet config blockNumber (calls w))
      as (Hw & Hd & He).
    destruct (attemptOutcome config blockNumber (calls w)) as [r|error] eqn:E.
    + eexists (Ok (Some r, err)), _,
        (attemptEvents config blockNumber (calls w)).
      split; [reflexivity|].
      cbn [calls trace]. repeat split; auto.
      * rewrite Hd. replace (S (calls w) - calls w - 1)%nat with O by lia.
        reflexivity.
      * eapply attemptEvents_Ok_last; eassumption.
    + destruct (getOwnPropertyNames (caught err error)) as [[]|typeError]
        eqn:Hnames.
      * unfold bind, emit. cbn [calls trace].
        match goal with
        | |- context [retryLoop _ _ _ n ?i' ?err' ?w'] =>
            destruct (IH i' err' w')
              as (outcome & w2 & evs & Hrun & Htrace & Hcfg & Hres)
        end.
        rewrite Hrun. cbn [calls trace] in *.
        exists outcome, w2,
          (attemptEvents config blockNumber (calls w)
             ++ [EvWarn (retryMessage config i
                           (errorString (caught err error)));
                 EvSetTimeout delayMs] ++ evs).
        split; [reflexivity|]. split.
        { rewrite Htrace, <- !app_assoc. reflexivity. }
        split.
        { rewrite !engineConfigs_app. apply Forall_app. split; [assumption|].
          cbn. assumption. }
        destruct outcome as [[[r|] err2]|typeError].
        -- destruct Hres as (Hlt & Hdelays & Hlast).
           split; [lia|]. split.
           ++ rewrite !delays_app, Hd, Hdelays. cbn.
              replace (calls w2 - calls w - 1)%nat
                with (S (calls w2 - S (calls w) - 1)) by lia.
              reflexivity.
           ++ rewrite !last_app, Hlast. reflexivity.
        -- destruct Hres as (Hcalls & Hdelays & Hlast).
           split; [lia|]. split.
           ++ rewrite !delays_app, Hd, Hdelays. reflexivity.
           ++ right. destruct Hlast as [(-> & -> & ->)|(Hlast & x & ->)].
              ** split; [|eauto]. rewrite app_nil_r, last_app. reflexivity.
              ** split; [|eauto]. rewrite !last_app, Hlast. reflexivity.
        -- destruct Hres as (Hlt & Hdelays & Hnull).
           split; [lia|]. split; [|exact Hnull].
           rewrite !delays_app, Hd, Hdelays. cbn.
           replace (calls w2 - calls w - 1)%nat
             with (S (calls w2 - S (calls w) - 1)) by lia.
           reflexivity.
      * apply getOwnPropertyNames_Throw in Hnames as (Hnull & ->).
        apply caught_nullish in Hnull.
        eexists (Throw _), _, (attemptEvents config blockNumber (calls w)).
        split; [reflexivity|].
        cbn [calls trace]. split; [reflexivity|]. split; [assumption|].
        split; [lia|]. split.
        -- rewrite Hd. replace (S (calls w) - calls w - 1)%nat with O by lia.
           reflexivity.
        -- exists error. replace (S (calls w) - 1)%nat with (calls w) by lia.
           auto.
Qed.

(** ** The mean *)

Lemma fold_left_Qplus (ds : list Q) :
  forall d : Q, (fold_left Qplus ds d == d + fold_right Qplus 0 ds)%Q.
Proof.
  induction ds as [|x ds IH]; intros d; cbn [fold_left fold_right].
  - rewrite Qplus_0_r. reflexivity.
  - rewrite IH, Qplus_assoc. reflexivity.
Qed.

Lemma average_mean (ds : list Q) :
  ds <> [] -> (average ds == mean ds)%Q.
Proof.
  destruct ds as [|d ds]; [congruence|]. intros _.
  unfold average, mean. cbn [fold_right].
  rewrite fold_left_Qplus. reflexivity.
Qed.

(** ** The claims about the retry loop *)

(** After a first failure, as long as the values thrown are [Error]s the
    recorded error is the thrown value itself. *)
Lemma errAfter_errors (e : nat -> Thrown) (j : nat) :
  (forall i : nat, (1 <= i <= j)%nat -> isError (e i) = true) ->
  (1 <= j)%nat ->
  errAfter None e j = e j.
Proof.
  induction j as [|j IH]; intros Herr Hj; [lia|].
  cbn [errAfter]. unfold caught.
  destruct j as [|j].
  - cbn [errAfter]. unfold caught at 1. rewrite isError_newError. reflexivity.
  - rewrite IH by (try lia; intros i Hi; apply Herr; lia).
    rewrite Herr by lia. reflexivity.
Qed.

(** What is raised when every attempt fails and none records [null] or
    [undefined]: the last value of [err].  With a single attempt it is a new
    [Error] around the JSON text of what was thrown; with more attempts, all
    throwing [Error]s, it is the last thrown value. *)
Lemma discoverWithRetry_raises (config : DiscoveryConfig) (blockNumber : Z)
    (m : Z) (delayMs : option Z) (w : World) (e : nat -> Thrown) :
  0 <= m ->
  (forall j : nat,
      (j <= Z.to_nat m)%nat ->
      attemptOutcome config blockNumber (calls w + j) = Throw (e j)) ->
  (forall j : nat,
      (j <= Z.to_nat m)%nat -> isNullish (errAfter None e j) = false) ->
  fst (discoverWithRetry config blockNumber (Some m) delayMs w)
  = Throw (errAfter None e (Z.to_nat m))
  /\ (m = 0 -> errAfter None e (Z.to_nat m) = newError (JSON_stringify (e O)))
  /\ (0 < m ->
      (forall i : nat, (1 <= i <= Z.to_nat m)%nat -> isError (e i) = true) ->
      errAfter None e (Z.to_nat m) = e (Z.to_nat m)).
Proof.
  intros Hm Hfail Hshown.
  rewrite (discoverWithRetry_failure config blockNumber (Some m) delayMs w e)
    by assumption.
  split; [reflexivity|]. split.
  - intros ->. reflexivity.
  - intros Hpos Herr. apply errAfter_errors; [assumption|lia].
Qed.



(** ** The claims about metrics and configuration *)

(** C7: once the engine has returned, [discover] sets, for each of the three
    tiers in turn and each entry of the measurement table, the tier's count
    gauge to the recorded count and its duration gauge to the average of the
    recorded durations, under the labels [{chain, method}]; the average is 0
    when no duration was recorded and the arithmetic mean otherwise; all of
    this happens before the conversion to the output, whether or not that
    conversion succeeds. *)
Theorem discover_emits_metrics
    (config : DiscoveryConfig) (blockNumber : Z) (w : World)
    (provider : Provider) (result : Analysis) :
  allProviders_get (calls w) (config_chain config) blockNumber = Ok provider ->
  discoveryEngine_discover (calls w) provider config = Ok result ->
  let chain := config_chain config in
  let stats := allProviders_getStats (calls w) chain in
  let tier (countGauge durationGauge : ProviderGauge)
        (measurements : ProviderStats) :=
    flat_map
      (fun entry : string * Z =>
         [EvGaugeSet countGauge chain (fst entry)
            (inject_Z (count (measurements (snd entry))));
          EvGaugeSet durationGauge chain (fst entry)
            (average (durations (measurements (snd entry))))])
      ProviderMeasurement_entries in
  (exists rest : list Event,
      trace (snd (discover config blockNumber w))
      = trace w
        ++ [EvGetProvider chain blockNumber; EvEngineDiscover config]
        ++ (tier lowLevelProviderCountGauge lowLevelProviderDurationGauge
              (lowLevelMeasurements stats)
            ++ tier cacheProviderCountGauge cacheProviderDurationGauge
                 (cacheMeasurements stats)
            ++ tier highLevelProviderCountGauge
                 highLevelProviderDurationGauge
                 (highLevelMeasurements stats))
        ++ EvToDiscoveryOutput :: rest
      /\ (rest = [] \/ rest = [EvFlattenSources]))
  /\ average [] = 0%Q
  /\ (forall ds : list Q, ds <> [] -> (average ds == mean ds)%Q).
Proof.
  intros Hprovider Hengine chain stats tier.
  split; [|split; [reflexivity|apply average_mean]].
  rewrite discover_run. cbn [snd trace].
  rewrite attemptEvents_stages, Hprovider, Hengine.
  fold chain stats.
  destruct (toDiscoveryOutput _ _ _ _ result);
    eexists; (split; [reflexivity|]); auto.
Qed.

(** C6: with [injectInitialAddresses] set, [run] reads the previous output
    for the project on the runner's chain and then retries discovery with a
    configuration whose [initialAddresses] are the addresses of that output's
    contracts, in order, and whose [maxAddresses] and [maxDepth] are three
    times the configured values (or three times 200 and 6 where none is
    configured); every invocation of the engine receives that
    configuration. *)
Theorem run_injects_initial_addresses
    (this : Runner) (projectConfig : DiscoveryConfig) (blockNumber : Z)
    (options : DiscoveryRunnerOptions) (w : World)
    (previous : DiscoveryOutput) :
  injectInitialAddresses options = true ->
  configReader_readDiscovery (config_name projectConfig) (this_chain this)
  = Ok previous ->
  let config :=
    newDiscoveryConfig
      {| raw_name := raw_name (raw projectConfig);
         raw_chain := raw_chain (raw projectConfig);
         raw_initialAddresses := map address (contracts previous);
         raw_maxAddresses :=
           Some (default 200 (raw_maxAddresses (raw projectConfig)) * 3);
         raw_maxDepth :=
           Some (default 6 (raw_maxDepth (raw projectConfig)) * 3);
         raw_others := raw_others (raw projectConfig) |} in
  run this projectConfig blockNumber options w
  = discoverWithRetry config blockNumber
      (maxRetries options) (retryDelayMs options)
      {| calls := calls w;
         trace := trace w
           ++ [EvReadDiscovery (config_name projectConfig)
                 (this_chain this)] |}
  /\ exists evs : list Event,
       trace (snd (run this projectConfig blockNumber options w))
       = trace w
         ++ EvReadDiscovery (config_name projectConfig) (this_chain this)
         :: evs
       /\ Forall (fun c => c = config) (engineConfigs evs).
Proof.
  intros Hinject Hread config.
  assert (Hrun :
            run this projectConfig blockNumber options w
            = discoverWithRetry config blockNumber
                (maxRetries options) (retryDelayMs options)
                {| calls := calls w;
                   trace := trace w
                     ++ [EvReadDiscovery (config_name projectConfig)
                           (this_chain this)] |}).
  { unfold run. rewrite Hinject.
    unfold updateInitialAddresses, bind at 1 2, call, ret.
    rewrite Hread. reflexivity. }
  split; [exact Hrun|]. rewrite Hrun.
  unfold discoverWithRetry, bind.
  match goal with
  | |- context [retryLoop ?c ?b ?d ?n ?i ?err ?w0] =>
      destruct (retryLoop_shape c b d n i err w0)
        as (outcome & w' & evs & Hloop & Htrace & Hcfg & _)
  end.
  rewrite Hloop. exists evs. split; [|assumption].
  cbn [trace] in Htrace.
  destruct outcome as [[[r|] [x|]]|typeError];
    cbn [snd trace ret throw]; rewrite Htrace, <- app_assoc; reflexivity.
Qed.

(** C9: [updateInitialAddresses] writes [initialAddresses], [maxAddresses]
    and [maxDepth] only: the name, the chain and every other property of the
    raw configuration are those of the configuration it was given. *)
Theorem updateInitialAddresses_frame
    (this : Runner) (config config' : DiscoveryConfig) (w w' : World) :
  updateInitialAddresses this config w = (Ok config', w') ->
  raw_name (raw config') = raw_name (raw config)
  /\ raw_chain (raw config') = raw_chain (raw config)
  /\ raw_others (raw config') = raw_others (raw config)
  /\ forall key : string,
       raw_others (raw config') !! key = raw_others (raw config) !! key.
Proof.
  unfold updateInitialAddresses, bind, call, ret.
  destruct (configReader_readDiscovery _ _) as [previous|]; [|discriminate].
  intros [= <- _]. cbn. repeat split; reflexivity.
Qed.

End RunnerFacts.

(** * The code on concrete inputs *)

Example base64_Man : base64_encode ["M"%byte; "a"%byte; "n"%byte] = "TWFu".
Proof. reflexivity. Qed.

Example base64_Ma : base64_encode ["M"%byte; "a"%byte] = "TWE=".
Proof. reflexivity. Qed.

Example base64_M : base64_encode ["M"%byte] = "TQ==".
Proof. reflexivity. Qed.

Section Concrete.
Import ArbitrumDACKeyset DiscoveryRunner.

#[local] Existing Instance Sample.runtime.
#[local] Existing Instance Sample.abi.

(** The worked example of the specification: assumed honest 2, three members
    with 48-byte keys, behind an earlier malformed log that is not looked at. *)
Lemma decodeLastEvent_decodes_last_log_witness :
  let lastEvent := Sample.logOf (keysetLayout 2 Sample.threeKeys) in
  let earlier := [Sample.logOf Sample.overrunPayload] in
  let provider := {| getLogs := fun _ _ => Ok (earlier ++ [lastEvent]) |} in
  (0 <= 2 < 2 ^ 53
   /\ Z.of_nat (length Sample.threeKeys) < 2 ^ 32
   /\ Forall (fun key => Bytes.length key < 2 ^ 16) Sample.threeKeys
   /\ decodeEventLog_keysetBytes (log_data lastEvent)
      = Ok (keysetLayout 2 Sample.threeKeys)
   /\ getLogs provider "0xaa" [[getEventTopic]] = Ok (earlier ++ [lastEvent]))
  /\ decodeLastEvent (earlier ++ [lastEvent])
     = Ok {| requiredSignatures := 2;
             membersCount := 3;
             blsSignatures :=
               ["AQEBAQEBAQEBAQEBAQEBAQEBAQEBAQEBAQEBAQEBAQEBAQEBAQEBAQEBAQEBAQEB";
                "AgICAgICAgICAgICAgICAgICAgICAgICAgICAgICAgICAgICAgICAgICAgICAgIC";
                "AwMDAwMDAwMDAwMDAwMDAwMDAwMDAwMDAwMDAwMDAwMDAwMDAwMDAwMDAwMDAwMD"] |}.
Proof.
  intros lastEvent earlier provider.
  assert (Ha : 0 <= 2 < 2 ^ 53) by lia.
  assert (Hn : Z.of_nat (length Sample.threeKeys) < 2 ^ 32) by reflexivity.
  assert (Hkeys : Forall (fun key => Bytes.length key < 2 ^ 16) Sample.threeKeys)
    by (repeat constructor).
  assert (Hdecode :
            decodeEventLog_keysetBytes (log_data lastEvent)
            = Ok (keysetLayout 2 Sample.threeKeys)) by reflexivity.
  assert (Hlogs : getLogs provider "0xaa" [[getEventTopic]]
                  = Ok (earlier ++ [lastEvent])) by reflexivity.
  split; [exact (conj Ha (conj Hn (conj Hkeys (conj Hdecode Hlogs))))|].
  exact (proj1 (proj2 (decodeLastEvent_decodes_last_log
                         earlier lastEvent 2 Sample.threeKeys
                         "keyset" "0xaa" provider
                         Ha Hn Hkeys Hdecode Hlogs))).
Defined.

Lemma execute_no_logs_witness :
  let provider := {| getLogs := fun _ _ => Ok [] |} in
  getLogs provider "0xaa" [[getEventTopic]] = Ok []
  /\ snd (execute "keyset" provider "0xaa")
     = Ok {| field := "keyset";
             value := {| requiredSignatures := 0;
                         membersCount := 0;
                         blsSignatures := [] |} |}.
Proof.
  intros provider. split; [reflexivity|].
  exact (proj2 (execute_no_logs "keyset" "0xaa" provider eq_refl)).
Defined.


(** C2 on two runs.  With [maxRetries = 1] and an engine that throws
    [Error("boom")] and then succeeds, the run returns the result of the
    second attempt and logs one warning, but the warning does not carry the
    error of the failed attempt: its text is that of a new [Error] around the
    JSON text of the error, which is "{}"; the catch clause tests the previous
    value of [err], which is still undefined.  With [maxRetries = 2] and an
    engine that throws [Error("boom")], then rejects with [undefined], then
    succeeds, the same test stores [undefined] in [err] at the second failure,
    building the warning throws, and the run raises that [TypeError] after two
    attempts instead of returning the result of the third. *)
Theorem discoverWithRetry_first_warning_not_the_error :
  let r := {| discovery :=
                {| out_name := "project"; out_chain := "ethereum";
                   out_configHash := "0xhash"; out_blockNumber := 7;
                   contracts := [] |};
              flatSources := ∅ |} in
  let run := @discoverWithRetry _ Sample.hiccup Sample.config 7
               (Some 1) None Sample.start in
  let run' := @discoverWithRetry _ Sample.interrupted Sample.config 7
                (Some 2) None Sample.start in
  (@attemptOutcome _ Sample.hiccup Sample.config 7 0
   = Throw (Sample.ErrorObject "boom")
   /\ @attemptOutcome _ Sample.hiccup Sample.config 7 1 = Ok r
   /\ fst run = Ok r
   /\ warnings (trace (snd run))
      = [retryMessage Sample.config 0 (errorString (Sample.ErrorObject "{}"))]
   /\ retryMessage Sample.config 0 (errorString (Sample.ErrorObject "{}"))
      <> retryMessage Sample.config 0
           (errorString (Sample.ErrorObject "boom")))
  /\ (@attemptOutcome _ Sample.interrupted Sample.config 7 0
      = Throw (Sample.ErrorObject "boom")
      /\ @attemptOutcome _ Sample.interrupted Sample.config 7 1
         = Throw Sample.Undefined
      /\ @attemptOutcome _ Sample.interrupted Sample.config 7 2 = Ok r
      /\ fst run'
         = Throw (Sample.TypeErrorObject
                    "Cannot convert undefined or null to object")
      /\ calls (snd run') = 2%nat
      /\ length (warnings (trace (snd run'))) = 1%nat).
Proof.
  cbn zeta. repeat split; try reflexivity. vm_compute. discriminate.
Qed.

(** C3 at [maxRetries = 0] with an engine that throws [Error("boom")]: the
    single attempt fails, and what [discoverWithRetry] raises is not that
    error but a new [Error] whose message is its JSON text; the catch clause
    tests the previous value of [err], which is still undefined. *)
Theorem discoverWithRetry_single_attempt_raises_wrapper :
  let run := @discoverWithRetry _ Sample.broken Sample.config 7
               (Some 0) None Sample.start in
  @attemptOutcome _ Sample.broken Sample.config 7 0
  = Throw (Sample.ErrorObject "boom")
  /\ calls (snd run) = 1%nat
  /\ fst run = Throw (Sample.ErrorObject "{}")
  /\ Sample.ErrorObject "{}" <> Sample.ErrorObject "boom".
Proof.
  cbn zeta. repeat split; try reflexivity. discriminate.
Qed.

(** C10 at [maxRetries = 2] with an engine that throws [Error("boom")] and
    from then on rejects with [undefined]: every attempt fails, but the run
    enters [discover] twice, not three times, logs one warning and waits once,
    and raises the [TypeError] of [Object.getOwnPropertyNames(undefined)].
    The catch clause tests the previous value of [err], so the second failure
    stores [undefined] itself in [err]. *)
Theorem discoverWithRetry_undefined_rejection_ends_run :
  let run := @discoverWithRetry _ Sample.rejecting Sample.config 7
               (Some 2) (Some 5) Sample.start in
  @attemptOutcome _ Sample.rejecting Sample.config 7 0
  = Throw (Sample.ErrorObject "boom")
  /\ @attemptOutcome _ Sample.rejecting Sample.config 7 1
     = Throw Sample.Undefined
  /\ @attemptOutcome _ Sample.rejecting Sample.config 7 2
     = Throw Sample.Undefined
  /\ calls (snd run) = 2%nat
  /\ length (warnings (trace (snd run))) = 1%nat
  /\ delays (trace (snd run)) = [5]
  /\ fst run
     = Throw (Sample.TypeErrorObject
                "Cannot convert undefined or null to object").
Proof.
  cbn zeta. repeat split; reflexivity.
Qed.



Lemma discover_emits_metrics_witness :
  let w := Sample.start in
  (@allProviders_get _ Sample.healthy (calls w)
     (config_chain Sample.config) 7 = Ok tt
   /\ @discoveryEngine_discover _ Sample.healthy (calls w) tt Sample.config
      = Ok tt)
  /\ exists rest : list Event,
       trace (snd (@discover _ Sample.healthy Sample.config 7 w))
       = [EvGetProvider "ethereum" 7; EvEngineDiscover Sample.config;
          EvGaugeSet lowLevelProviderCountGauge "ethereum" "CALL" 3;
          EvGaugeSet lowLevelProviderDurationGauge "ethereum" "CALL" (63 # 3);
          EvGaugeSet lowLevelProviderCountGauge "ethereum" "GET_STORAGE" 2;
          EvGaugeSet lowLevelProviderDurationGauge "ethereum" "GET_STORAGE" 0;
          EvGaugeSet cacheProviderCountGauge "ethereum" "CALL" 0;
          EvGaugeSet cacheProviderDurationGauge "ethereum" "CALL" 0;
          EvGaugeSet cacheProviderCountGauge "ethereum" "GET_STORAGE" 0;
          EvGaugeSet cacheProviderDurationGauge "ethereum" "GET_STORAGE" 0;
          EvGaugeSet highLevelProviderCountGauge "ethereum" "CALL" 1;
          EvGaugeSet highLevelProviderDurationGauge "ethereum" "CALL" (7 # 2);
          EvGaugeSet highLevelProviderCountGauge "ethereum" "GET_STORAGE" 1;
          EvGaugeSet highLevelProviderDurationGauge "ethereum" "GET_STORAGE"
            (7 # 2)]
         ++ EvToDiscoveryOutput :: rest.
Proof.
  intros w.
  assert (H1 : @allProviders_get _ Sample.healthy (calls w)
                 (config_chain Sample.config) 7 = Ok tt) by reflexivity.
  assert (H2 : @discoveryEngine_discover _ Sample.healthy (calls w) tt
                 Sample.config = Ok tt) by reflexivity.
  split; [exact (conj H1 H2)|].
  destruct (@discover_emits_metrics _ Sample.healthy Sample.config 7 w
              tt tt H1 H2) as ((rest & Htrace & _) & _).
  exists rest. rewrite Htrace. reflexivity.
Defined.

Lemma run_injects_initial_addresses_witness :
  let options := {| injectInitialAddresses := true;
                    maxRetries := Some 0;
                    retryDelayMs := None |} in
  let config :=
    newDiscoveryConfig
      {| raw_name := "project";
         raw_chain := "ethereum";
         raw_initialAddresses := ["0xaa"; "0xbb"];
         raw_maxAddresses := Some 600;
         raw_maxDepth := Some 12;
         raw_others := raw_others (raw Sample.config) |} in
  (injectInitialAddresses options = true
   /\ @configReader_readDiscovery _ Sample.healthy
        (config_name Sample.config) (this_chain Sample.runner)
      = Ok Sample.previous)
  /\ @run _ Sample.healthy Sample.runner Sample.config 7 options Sample.start
     = @discoverWithRetry _ Sample.healthy config 7 (Some 0) None
         {| calls := 0; trace := [EvReadDiscovery "project" "ethereum"] |}.
Proof.
  intros options config.
  assert (H1 : injectInitialAddresses options = true) by reflexivity.
  assert (H2 : @configReader_readDiscovery _ Sample.healthy
                 (config_name Sample.config) (this_chain Sample.runner)
               = Ok Sample.previous) by reflexivity.
  split; [exact (conj H1 H2)|].
  exact (proj1 (@run_injects_initial_addresses _ Sample.healthy
                  Sample.runner Sample.config 7 options Sample.start
                  Sample.previous H1 H2)).
Defined.

Lemma updateInitialAddresses_frame_witness :
  let config' :=
    newDiscoveryConfig
      {| raw_name := "project";
         raw_chain := "ethereum";
         raw_initialAddresses := ["0xaa"; "0xbb"];
         raw_maxAddresses := Some 600;
         raw_maxDepth := Some 12;
         raw_others := raw_others (raw Sample.config) |} in
  let w' := {| calls := 0; trace := [EvReadDiscovery "project" "ethereum"] |} in
  @updateInitialAddresses _ Sample.healthy Sample.runner Sample.config
    Sample.start = (Ok config', w')
  /\ raw_others (raw config') !! "names" = Some (JObj [])
  /\ raw_name (raw config') = "project".
Proof.
  intros config' w'.
  assert (H1 : @updateInitialAddresses _ Sample.healthy Sample.runner
                 Sample.config Sample.start = (Ok config', w'))
    by reflexivity.
  split; [exact H1|].
  destruct (@updateInitialAddresses_frame _ Sample.healthy Sample.runner
              Sample.config config' Sample.start w' H1)
    as (Hname & _ & _ & Hothers).
  split.
  - rewrite Hothers. apply lookup_singleton_eq.
  - rewrite Hname. reflexivity.
Defined.

End Concrete.

(** * Further facts about the keyset handler *)

Section KeysetMore.
Import ArbitrumDACKeyset.
Context `{Abi}.

(** X1: a payload of fewer than 16 bytes whose count bytes, as far as they
    are there, declare fewer than 2^32 members is never decoded: the cursor
    starts at 16, behind its end, and the final assertion throws. *)
Theorem decodeLastEvent_short_payload
    (earlier : list Log) (lastEvent : Log) (payload : Bytes.t) :
  decodeEventLog_keysetBytes (log_data lastEvent) = Ok payload ->
  Bytes.length payload < 16 ->
  Bytes.toNumber (Bytes.slice payload 8 16) < 2 ^ 32 ->
  decodeLastEvent (earlier ++ [lastEvent]) = Throw (assertionError None).
Proof.
  intros Hdecode Hshort Hcount. rewrite decodeLastEvent_snoc, Hdecode.
  apply decodeKeysetBytes_mismatch. unfold finalHead.
  pose proof (readMembers_head_le payload
                (Z.to_nat (Bytes.toNumber (Bytes.slice payload 8 16))) 16 []).
  lia.
Qed.

(** X2: a decoded keyset has as many signatures as its [membersCount], and
    every member takes at least its two length bytes: the payload is at least
    [16 + 2 * membersCount] bytes long. *)
Theorem decodeLastEvent_members_fit
    (earlier : list Log) (lastEvent : Log) (payload : Bytes.t) (k : Keyset) :
  decodeEventLog_keysetBytes (log_data lastEvent) = Ok payload ->
  decodeLastEvent (earlier ++ [lastEvent]) = Ok k ->
  Z.of_nat (length (blsSignatures k)) = membersCount k
  /\ 0 <= membersCount k
  /\ 16 + 2 * membersCount k <= Bytes.length payload.
Proof.
  intros Hdecode Hok. rewrite decodeLastEvent_snoc, Hdecode in Hok.
  destruct (decodeKeysetBytes_Ok payload k Hok)
    as (_ & a & keys & -> & Ha & Hkeys & ->).
  cbn [blsSignatures membersCount]. rewrite length_map.
  split; [reflexivity|]. split; [lia|].
  unfold keysetLayout, Bytes.length.
  rewrite !length_app, !length_bigEndian.
  pose proof (length_concat_members keys) as Hlen.
  unfold Bytes.length in Hlen.
  assert (Hsum : 2 * Z.of_nat (length keys)
                 <= fold_right
                      (fun (key : Bytes.t) acc => 2 + Z.of_nat (length key) + acc)
                      0 keys).
  { clear. induction keys as [|key keys IH]; cbn [length fold_right]; lia. }
  lia.
Qed.

(** X3: the threshold of a decoded keyset whose assumed-honest count is below
    2^53 (where the numbers of the code are exact) is [membersCount + 1]
    minus that count, so it lies between [membersCount - 2^53 + 2] and
    [membersCount + 1]; the handler does not require it to be positive or at
    most [membersCount]. *)
Theorem decodeLastEvent_threshold_range
    (earlier : list Log) (lastEvent : Log) (payload : Bytes.t) (k : Keyset) :
  decodeEventLog_keysetBytes (log_data lastEvent) = Ok payload ->
  Bytes.toNumber (Bytes.slice payload 0 8) < 2 ^ 53 ->
  decodeLastEvent (earlier ++ [lastEvent]) = Ok k ->
  requiredSignatures k
  = membersCount k - Bytes.toNumber (Bytes.slice payload 0 8) + 1
  /\ membersCount k - 2 ^ 53 + 2 <= requiredSignatures k <= membersCount k + 1.
Proof.
  intros Hdecode Hheader Hok. rewrite decodeLastEvent_snoc, Hdecode in Hok.
  pose proof (toNumber_range (Bytes.slice payload 0 8)) as Hrange.
  assert (Hlen : (length (Bytes.slice payload 0 8) <= 8)%nat).
  { unfold Bytes.slice. rewrite length_take. lia. }
  assert (Hpow : 256 ^ Z.of_nat (length (Bytes.slice payload 0 8)) <= 2 ^ 64).
  { change (2 ^ 64) with (256 ^ 8). apply Z.pow_le_mono_r; lia. }
  unfold decodeKeysetBytes, assert in Hok.
  destruct (readMembers payload _ 16 []) as [sigs head].
  destruct (head =? Bytes.length payload); [|discriminate].
  injection Hok as <-. cbn [requiredSignatures membersCount].
  split; [reflexivity|lia].
Qed.

(** X4: no payload and a proper extension of it both decode: bytes appended
    to a well-formed payload make the decode throw, and so does cutting bytes
    off a well-formed payload's end. *)
Theorem decodeLastEvent_no_extension
    (shorter longer : Log) (payload extra : Bytes.t) (k : Keyset) :
  decodeEventLog_keysetBytes (log_data shorter) = Ok payload ->
  decodeEventLog_keysetBytes (log_data longer) = Ok (payload ++ extra) ->
  extra <> [] ->
  decodeLastEvent [shorter] = Ok k ->
  decodeLastEvent [longer] = Throw (assertionError None).
Proof.
  intros Hshort Hlong Hextra Hok.
  change [shorter] with ([] ++ [shorter]) in Hok.
  change [longer] with ([] ++ [longer]).
  rewrite decodeLastEvent_snoc, Hshort in Hok.
  rewrite decodeLastEvent_snoc, Hlong.
  apply decodeKeysetBytes_mismatch.
  assert (Hhead : finalHead payload = Bytes.length payload).
  { unfold decodeKeysetBytes, finalHead, assert in *.
    destruct (readMembers payload _ 16 []) as [sigs head]. cbn [snd].
    destruct (head =? Bytes.length payload) eqn:E; [|discriminate].
    apply Z.eqb_eq in E. exact E. }
  unfold finalHead in *.
  set (n := Z.to_nat (Bytes.toNumber (Bytes.slice payload 8 16))) in *.
  pose proof (readMembers_head_le payload n 16 []) as Hmono.
  destruct (readMembers_inside payload n 16 [])
    as (keys & Hlen & Hall & Hslice & _); [lia | lia |].
  rewrite Hhead in Hslice.
  assert (Hsplit : payload
                   = Bytes.slice payload 0 16 ++ concat (map memberLayout keys)).
  { rewrite <- Hslice, <- slice_split by lia.
    unfold Bytes.slice, Bytes.length. rewrite Z.sub_0_r, Nat2Z.id.
    cbn [Z.to_nat drop]. symmetry. apply take_ge. lia. }
  assert (Hheader : Bytes.slice (payload ++ extra) 8 16
                    = Bytes.slice payload 8 16).
  { unfold Bytes.slice, Bytes.length in *.
    rewrite drop_app_le by lia. rewrite take_app_le; [reflexivity|].
    rewrite length_drop. lia. }
  rewrite Hheader. fold n.
  assert (Hl16 : Bytes.length (Bytes.slice payload 0 16) = 16)
    by (rewrite length_slice; lia).
  set (header := Bytes.slice payload 0 16) in *. clearbody header.
  rewrite <- Hlen. clear Hslice Hheader Hmono Hhead Hlen. subst payload.
  rewrite <- app_assoc.
  replace 16 with (Bytes.length header) at 1 by exact Hl16.
  rewrite readMembers_layout by assumption. cbn [snd].
  unfold Bytes.length. rewrite !length_app.
  destruct extra; [congruence|]. cbn [length]. lia.
Qed.

End KeysetMore.

(** * Further facts about the discovery runner *)

Section RunnerMore.
Import DiscoveryRunner.
Context `{Collaborators}.

Lemma gaugeSets_app (t1 t2 : list Event) :
  gaugeSets (t1 ++ t2) = gaugeSets t1 ++ gaugeSets t2.
Proof. apply omap_app. Qed.

Lemma discoveryReads_app (t1 t2 : list Event) :
  discoveryReads (t1 ++ t2) = discoveryReads t1 ++ discoveryReads t2.
Proof. apply omap_app. Qed.

Lemma metricsEvents_no_reads (stats : AllProviderStats) (chain : string) :
  discoveryReads (metricsEvents stats chain) = [].
Proof.
  unfold metricsEvents, gaugeEvents. rewrite !discoveryReads_app.
  induction ProviderMeasurement_entries as [|entry entries IH];
    [reflexivity|]. cbn [flat_map app]. cbn. assumption.
Qed.

Lemma attemptEvents_no_reads (config : DiscoveryConfig) (blockNumber : Z)
    (k : nat) :
  discoveryReads (attemptEvents config blockNumber k) = [].
Proof.
  rewrite attemptEvents_stages.
  destruct (allProviders_get k _ _) as [provider|]; [|reflexivity].
  destruct (discoveryEngine_discover k provider config) as [result|];
    [|reflexivity].
  change (EvGetProvider (config_chain config) blockNumber
          :: EvEngineDiscover config :: ?t)
    with ([EvGetProvider (config_chain config) blockNumber;
           EvEngineDiscover config] ++ t).
  rewrite !discoveryReads_app, metricsEvents_no_reads.
  destruct (toDiscoveryOutput _ _ _ _ result); reflexivity.
Qed.

(** Whatever the attempts return, the loop enters [discover] at most [n]
    times, waits once for every warning it logs, and reads no previous
    output.  It logs one warning per failed attempt, except for the attempt
    that ends a loop left by the [TypeError] of
    [Object.getOwnPropertyNames]. *)
Lemma retryLoop_bounded (config : DiscoveryConfig) (blockNumber delayMs : Z)
    (n : nat) :
  forall (i : Z) (err : option Thrown) (w : World),
  exists (outcome : Result Thrown (option DiscoveryRunResult * option Thrown))
         (w' : World) (evs : list Event),
    retryLoop config blockNumber delayMs n i err w = (outcome, w')
    /\ trace w' = trace w ++ evs
    /\ (calls w <= calls w' <= calls w + n)%nat
    /\ length (delays evs) = length (warnings evs)
    /\ match outcome with
       | Ok (None, _) => length (warnings evs) = (calls w' - calls w)%nat
       | Ok (Some _, _) =>
           (calls w < calls w')%nat
           /\ length (warnings evs) = (calls w' - calls w - 1)%nat
       | Throw _ =>
           (calls w < calls w')%nat
           /\ length (warnings evs) = (calls w' - calls w - 1)%nat
           /\ exists error : Thrown,
                attemptOutcome config blockNumber (calls w' - 1) = Throw error
                /\ isNullish error = true
       end
    /\ discoveryReads evs = [].
Proof.
  induction n as [|n IH]; intros i err w.
  - exists (Ok (None, err)), w, []. cbn. rewrite app_nil_r.
    repeat split; auto; lia.
  - cbn [retryLoop]. rewrite discover_run.
    destruct (attemptEvents_quiet config blockNumber (calls w))
      as (Hw & Hd & _).
    pose proof (attemptEvents_no_reads config blockNumber (calls w)) as Hr.
    destruct (attemptOutcome config blockNumber (calls w)) as [r|error] eqn:E.
    + eexists (Ok (Some r, err)), _,
        (attemptEvents config blockNumber (calls w)).
      split; [reflexivity|]. cbn [calls trace].
      rewrite Hw, Hd. repeat split; auto; cbn; lia.
    + destruct (getOwnPropertyNames (caught err error)) as [[]|typeError]
        eqn:Hnames.
      * unfold bind, emit. cbn [calls trace].
        match goal with
        | |- context [retryLoop _ _ _ n ?i' ?err' ?w'] =>
            destruct (IH i' err' w')
              as (outcome & w2 & evs & Hrun & Htrace & Hcalls & Hwait
                  & Hwarn & Hreads)
        end.
        rewrite Hrun. cbn [calls trace] in *.
        exists outcome, w2,
          (attemptEvents config blockNumber (calls w)
             ++ [EvWarn (retryMessage config i
                           (errorString (caught err error)));
                 EvSetTimeout delayMs] ++ evs).
        split; [reflexivity|]. split.
        { rewrite Htrace, <- !app_assoc. reflexivity. }
        split; [lia|].
        assert (Hlen : length
                         (warnings
                            (attemptEvents config blockNumber (calls w)
                               ++ [EvWarn (retryMessage config i
                                             (errorString (caught err error)));
                                   EvSetTimeout delayMs] ++ evs))
                       = S (length (warnings evs))).
        { rewrite !warnings_app, Hw. reflexivity. }
        assert (Hlen' : length
                          (delays
                             (attemptEvents config blockNumber (calls w)
                                ++ [EvWarn (retryMessage config i
                                              (errorString (caught err error)));
                                    EvSetTimeout delayMs] ++ evs))
                        = S (length (delays evs))).
        { rewrite !delays_app, Hd. reflexivity. }
        rewrite Hlen, Hlen'. split; [lia|]. split.
        -- destruct outcome as [[[r|] err2]|typeError].
           ++ destruct Hwarn as (Hlt & Hwarn). split; lia.
           ++ lia.
           ++ destruct Hwarn as (Hlt & Hwarn & Hnull).
              split; [lia|]. split; [lia|exact Hnull].
        -- rewrite !discoveryReads_app, Hr, Hreads. reflexivity.
      * apply getOwnPropertyNames_Throw in Hnames as (Hnull & ->).
        apply caught_nullish in Hnull.
        eexists (Throw _), _, (attemptEvents config blockNumber (calls w)).
        split; [reflexivity|]. cbn [calls trace].
        rewrite Hw, Hd. split; [reflexivity|]. split; [lia|].
        split; [reflexivity|]. split; [|assumption].
        split; [lia|]. split; [cbn; lia|].
        exists error. replace (S (calls w) - 1)%nat with (calls w) by lia.
        auto.
Qed.

(** X5: a negative [maxRetries] leaves the loop no iteration: [discover] is
    not entered, nothing is logged, and the assertion on [err] throws. *)
Theorem discoverWithRetry_negative_budget
    (config : DiscoveryConfig) (blockNumber : Z)
    (maxRetries delayMs : option Z) (w : World) :
  default MAX_RETRIES maxRetries < 0 ->
  discoverWithRetry config blockNumber maxRetries delayMs w
  = (Throw (assertionError
              (Some "Programmer error: Error should not be undefined there")),
     w).
Proof.
  intros Hneg. unfold discoverWithRetry, bind.
  replace (Z.to_nat (default MAX_RETRIES maxRetries + 1)) with O by lia.
  reflexivity.
Qed.


(** X7: without [injectInitialAddresses], [run] is [discoverWithRetry] on the
    project configuration as given, and the previous output is never read. *)
Theorem run_without_injection
    (this : Runner) (projectConfig : DiscoveryConfig) (blockNumber : Z)
    (options : DiscoveryRunnerOptions) (w : World) :
  injectInitialAddresses options = false ->
  run this projectConfig blockNumber options w
  = discoverWithRetry projectConfig blockNumber
      (maxRetries options) (retryDelayMs options) w
  /\ exists evs : list Event,
       trace (snd (run this projectConfig blockNumber options w))
       = trace w ++ evs
       /\ discoveryReads evs = []
       /\ Forall (fun c => c = projectConfig) (engineConfigs evs).
Proof.
  intros Hoff.
  assert (Hrun : run this projectConfig blockNumber options w
                 = discoverWithRetry projectConfig blockNumber
                     (maxRetries options) (retryDelayMs options) w).
  { unfold run. rewrite Hoff. reflexivity. }
  split; [exact Hrun|]. rewrite Hrun.
  unfold discoverWithRetry, bind.
  match goal with
  | |- context [retryLoop ?c ?b ?d ?n ?i ?err ?w0] =>
      destruct (retryLoop_bounded c b d n i err w0)
        as (outcome & w' & evs & Hloop & Htrace & _ & _ & _ & Hreads);
      destruct (retryLoop_shape c b d n i err w0)
        as (outcome2 & w2 & evs2 & Hloop2 & Htrace2 & Hcfg & _)
  end.
  rewrite Hloop in Hloop2. injection Hloop2 as <- <-.
  rewrite Htrace in Htrace2. apply app_inv_head in Htrace2. subst evs2.
  rewrite Hloop. exists evs.
  destruct outcome as [[[r|] [x|]]|typeError];
    cbn [snd trace ret throw]; auto.
Qed.

(** X8: with [injectInitialAddresses], a [readDiscovery] that throws ends the
    run at once with that value: it is outside the retry loop, and [discover]
    is not entered. *)
Theorem run_read_failure_not_retried
    (this : Runner) (projectConfig : DiscoveryConfig) (blockNumber : Z)
    (options : DiscoveryRunnerOptions) (w : World) (e : Thrown) :
  injectInitialAddresses options = true ->
  configReader_readDiscovery (config_name projectConfig) (this_chain this)
  = Throw e ->
  run this projectConfig blockNumber options w
  = (Throw e,
     {| calls := calls w;
        trace := trace w
          ++ [EvReadDiscovery (config_name projectConfig)
                (this_chain this)] |}).
Proof.
  intros Hon Hread. unfold run. rewrite Hon.
  unfold updateInitialAddresses, bind, call. rewrite Hread. reflexivity.
Qed.

(** X9: when the provider lookup or the engine throws, the attempt throws the
    same value and has set no gauge: metrics are published only for attempts
    whose engine run returned. *)
Theorem discover_fails_before_metrics
    (config : DiscoveryConfig) (blockNumber : Z) (w : World) (e : Thrown) :
  allProviders_get (calls w) (config_chain config) blockNumber = Throw e
  \/ (exists provider : Provider,
        allProviders_get (calls w) (config_chain config) blockNumber
        = Ok provider
        /\ discoveryEngine_discover (calls w) provider config = Throw e) ->
  exists evs : list Event,
    discover config blockNumber w
    = (Throw e, {| calls := S (calls w); trace := trace w ++ evs |})
    /\ gaugeSets evs = []
    /\ ~ In EvToDiscoveryOutput evs.
Proof.
  intros Hfail. rewrite discover_run, attemptOutcome_stages.
  exists (attemptEvents config blockNumber (calls w)).
  rewrite attemptEvents_stages.
  destruct Hfail as [Hget|(provider & Hget & Hengine)].
  - rewrite Hget. split; [reflexivity|]. split; [reflexivity|].
    cbn. intros [Hin|[]]. discriminate.
  - rewrite Hget, Hengine. split; [reflexivity|]. split; [reflexivity|].
    cbn. intros [Hin|[Hin|[]]]; discriminate.
Qed.

(** X10: when the engine has returned and the conversion of its result, or
    the flattening of the sources, throws, the attempt fails with that value
    although the gauges of all three tiers have been set: [discoverWithRetry]
    retries it like any other failure, and sets the gauges again. *)
Theorem discover_fails_after_metrics
    (config : DiscoveryConfig) (blockNumber : Z) (w : World)
    (provider : Provider) (result : Analysis) (e : Thrown) :
  allProviders_get (calls w) (config_chain config) blockNumber = Ok provider ->
  discoveryEngine_discover (calls w) provider config = Ok result ->
  toDiscoveryOutput (config_name config) (config_chain config)
    (config_hash config) blockNumber result = Throw e
  \/ (exists output : DiscoveryOutput,
        toDiscoveryOutput (config_name config) (config_chain config)
          (config_hash config) blockNumber result = Ok output
        /\ flattenDiscoveredSources result = Throw e) ->
  exists evs : list Event,
    discover config blockNumber w
    = (Throw e, {| calls := S (calls w); trace := trace w ++ evs |})
    /\ gaugeSets evs
       = gaugeSets
           (metricsEvents
              (allProviders_getStats (calls w) (config_chain config))
              (config_chain config))
    /\ length (gaugeSets evs)
       = (6 * length ProviderMeasurement_entries)%nat.
Proof.
  intros Hget Hengine Hfail. rewrite discover_run, attemptOutcome_stages.
  exists (attemptEvents config blockNumber (calls w)).
  rewrite attemptEvents_stages, Hget, Hengine.
  assert (Hcount :
            forall stats chain,
              length (gaugeSets (metricsEvents stats chain))
              = (6 * length ProviderMeasurement_entries)%nat).
  { intros stats chain. unfold metricsEvents, gaugeEvents.
    rewrite !gaugeSets_app, !length_app.
    assert (Htier : forall cg dg (st : ProviderStats) (l : list (string * Z)),
               length (gaugeSets
                         (flat_map
                            (fun entry : string * Z =>
                               [EvGaugeSet cg chain (fst entry)
                                  (inject_Z (count (st (snd entry))));
                                EvGaugeSet dg chain (fst entry)
                                  (average (durations (st (snd entry))))])
                            l))
               = (2 * length l)%nat).
    { intros cg dg st l. induction l as [|x l IH]; [reflexivity|].
      cbn [flat_map]. rewrite gaugeSets_app, length_app, IH.
      cbn. lia. }
    rewrite !Htier. lia. }
  assert (Hsets :
            forall tail,
              gaugeSets tail = [] ->
              gaugeSets
                (EvGetProvider (config_chain config) blockNumber
                 :: EvEngineDiscover config
                 :: metricsEvents
                      (allProviders_getStats (calls w) (config_chain config))
                      (config_chain config) ++ tail)
              = gaugeSets
                  (metricsEvents
                     (allProviders_getStats (calls w) (config_chain config))
                     (config_chain config))).
  { intros tail Htail.
    change (EvGetProvider (config_chain config) blockNumber
            :: EvEngineDiscover config :: ?t)
      with ([EvGetProvider (config_chain config) blockNumber;
             EvEngineDiscover config] ++ t).
    rewrite !gaugeSets_app, Htail, app_nil_r. reflexivity. }
  destruct Hfail as [Hout|(output & Hout & Hflat)].
  - rewrite Hout. split; [reflexivity|].
    rewrite Hsets by reflexivity. split; [reflexivity|apply Hcount].
  - rewrite Hout, Hflat. split; [reflexivity|].
    rewrite Hsets by reflexivity. split; [reflexivity|apply Hcount].
Qed.


End RunnerMore.

(** * Facts about the activity controller *)

Section ActivityFacts.
Import Activity2Controller.

Lemma at_last {A} (l : list A) : at_ l (-1) = last l.
Proof.
  unfold at_. cbn [Z.ltb Z.compare].
  destruct l as [|x l] using rev_ind; [reflexivity|].
  rewrite last_snoc, length_app. cbn [length].
  destruct (Z.ltb_spec (Z.of_nat (length l + 1) + -1) 0) as [E|E]; [lia|].
  replace (Z.to_nat (Z.of_nat (length l + 1) + -1)) with (length l) by lia.
  apply list_lookup_middle. reflexivity.
Qed.

(** A negative index within the array reads from the end. *)
Lemma at_from_end {A} (l : list A) (L i : Z) :
  0 <= i < L -> L <= Z.of_nat (length l) ->
  at_ l (- L + i) = drop (Z.to_nat (Z.of_nat (length l) - L)) l !! Z.to_nat i.
Proof.
  intros Hi HL. unfold at_.
  destruct (Z.ltb_spec (- L + i) 0) as [E1|E1]; [|lia].
  destruct (Z.ltb_spec (Z.of_nat (length l) + (- L + i)) 0) as [E2|E2]; [lia|].
  rewrite lookup_drop. f_equal. lia.
Qed.

Lemma findIndexFrom_spec {A} (p : A -> bool) (l : list A) :
  forall i : Z,
    0 <= i ->
    match list_find (fun x => p x = true) l with
    | Some (j, _) => findIndexFrom p l i = i + Z.of_nat j
    | None => findIndexFrom p l i = -1
    end.
Proof.
  induction l as [|x l IH]; intros i Hi; [reflexivity|].
  cbn [findIndexFrom list_find]. unfold decide, decide_rel.
  destruct (bool_eq_dec (p x) true) as [Hp|Hp].
  - rewrite Hp. cbn. lia.
  - apply not_true_is_false in Hp. rewrite Hp.
    specialize (IH (i + 1) ltac:(lia)).
    destruct (list_find (fun x => p x = true) l) as [[j y]|]; cbn.
    + rewrite IH. lia.
    + exact IH.
Qed.

Lemma slice_take {A} (l : list A) (n : Z) :
  0 <= n <= Z.of_nat (length l) -> slice l 0 n = take (Z.to_nat n) l.
Proof.
  intros Hn. unfold slice, relativeIndex. cbn [Z.ltb Z.compare].
  destruct (Z.ltb_spec n 0) as [E|E]; [lia|].
  rewrite Z.min_l, Z.min_l by lia. rewrite Z.sub_0_r. reflexivity.
Qed.

(** The rows built by index are the last [L] points of both arrays, paired
    position by position. *)
Lemma rows_zip (api eth : list DailyTransactionCount) :
  let L := Z.min (Z.of_nat (length api)) (Z.of_nat (length eth)) in
  map (fun i =>
         let apiPoint := at_ api (- L + i) in
         let ethPoint := at_ eth (- L + i) in
         (from_option timestamp 0 apiPoint,
          from_option count 0 apiPoint,
          from_option count 0 ethPoint))
    (seqZ 0 L)
  = zip_with (fun a e => (timestamp a, count a, count e))
      (drop (Z.to_nat (Z.of_nat (length api) - L)) api)
      (drop (Z.to_nat (Z.of_nat (length eth) - L)) eth).
Proof.
  intros L. apply list_eq. intros i.
  rewrite list_lookup_fmap, lookup_zip_with.
  destruct (decide (Z.of_nat i < L)) as [Hlt|Hge].
  - rewrite lookup_seqZ_lt by assumption. cbn [fmap option_fmap option_map].
    rewrite Z.add_0_l.
    rewrite !at_from_end by lia. rewrite Nat2Z.id.
    destruct (lookup_lt_is_Some_2
                (drop (Z.to_nat (Z.of_nat (length api) - L)) api) i)
      as [a Ha]; [rewrite length_drop; lia|].
    destruct (lookup_lt_is_Some_2
                (drop (Z.to_nat (Z.of_nat (length eth) - L)) eth) i)
      as [e He]; [rewrite length_drop; lia|].
    rewrite Ha, He. reflexivity.
  - rewrite lookup_seqZ_ge by lia. cbn.
    rewrite (lookup_ge_None_2 (drop _ api)); [reflexivity|].
    rewrite length_drop. lia.
Qed.

(** What [alignActivityData] computes, in terms of the last project point and
    the first Ethereum point with its timestamp. *)
Lemma alignActivityData_spec (api : list DailyTransactionCount)
    (ethereum : option (list DailyTransactionCount)) :
  alignActivityData api ethereum
  = match last api with
    | None => error DATA_NOT_SYNCED
    | Some lastPoint =>
        match list_find
                (fun x => (timestamp x =? timestamp lastPoint) = true)
                (default [] ethereum) with
        | None => error ETHEREUM_DATA_DELAYED
        | Some (index, _) =>
            let aligned := take (S index) (default [] ethereum) in
            let L := Z.min (Z.of_nat (length api))
                       (Z.of_nat (length aligned)) in
            success
              (zip_with (fun a e => (timestamp a, count a, count e))
                 (drop (Z.to_nat (Z.of_nat (length api) - L)) api)
                 (drop (Z.to_nat (Z.of_nat (length aligned) - L)) aligned))
        end
    end.
Proof.
  unfold alignActivityData. rewrite at_last.
  destruct (last api) as [lastPoint|]; [|reflexivity].
  cbn [option_map]. unfold findIndex.
  pose proof (findIndexFrom_spec
                (fun x => timestamp x =? timestamp lastPoint)
                (default [] ethereum) 0 ltac:(lia)) as Hfind.
  destruct (list_find _ (default [] ethereum)) as [[index found]|] eqn:E.
  - rewrite Hfind.
    destruct (Z.eqb_spec (0 + Z.of_nat index) (-1)) as [E1|E1]; [lia|].
    apply list_find_Some in E. destruct E as (Hlook & _ & _).
    apply lookup_lt_Some in Hlook.
    rewrite slice_take by lia.
    replace (Z.to_nat (0 + Z.of_nat index + 1)) with (S index) by lia.
    cbv zeta. f_equal. apply rows_zip.
  - rewrite Hfind. reflexivity.
Qed.


(** X12: [alignActivityData] answers [DATA_NOT_SYNCED] exactly for an empty
    project chart, and [ETHEREUM_DATA_DELAYED] exactly when the chart is not
    empty and no Ethereum point carries the timestamp of its last point (in
    particular when the Ethereum chart is left out). *)
Theorem alignActivityData_errors (api : list DailyTransactionCount)
    (ethereum : option (list DailyTransactionCount)) :
  (alignActivityData api ethereum = error DATA_NOT_SYNCED <-> api = [])
  /\ (alignActivityData api ethereum = error ETHEREUM_DATA_DELAYED
      <-> exists lastPoint : DailyTransactionCount,
            last api = Some lastPoint
            /\ Forall (fun x => timestamp x <> timestamp lastPoint)
                 (default [] ethereum)).
Proof.
  rewrite alignActivityData_spec.
  destruct (last api) as [lastPoint|] eqn:Elast.
  - assert (Hne : api <> []) by (intros ->; discriminate).
    destruct (list_find _ (default [] ethereum)) as [[index found]|] eqn:E.
    + split; [split; [discriminate|contradiction]|].
      split; [discriminate|].
      intros (p & [= <-] & Hall).
      apply list_find_Some in E. destruct E as (Hlook & Hts & _).
      apply list_elem_of_lookup_2 in Hlook.
      rewrite Forall_forall in Hall. specialize (Hall _ Hlook).
      apply Z.eqb_eq in Hts. contradiction.
    + split; [split; [discriminate|contradiction]|].
      split; [|reflexivity]. intros _. exists lastPoint.
      split; [reflexivity|].
      apply list_find_None in E. eapply Forall_impl; [exact E|].
      cbn. intros x Hx Heq. apply Hx. apply Z.eqb_eq. exact Heq.
  - apply last_None in Elast. subst api.
    split; [split; reflexivity|].
    split; [discriminate|]. intros (p & Hp & _). discriminate.
Qed.

Lemma last_drop_lt {A} (l : list A) (n : nat) :
  (n < length l)%nat -> last (drop n l) = last l.
Proof.
  intros Hn. rewrite !last_lookup, lookup_drop, length_drop.
  f_equal. lia.
Qed.

Lemma zip_rows_project (l1 l2 : list DailyTransactionCount) :
  length l1 = length l2 ->
  map (fun row : Z * Z * Z => (fst (fst row), snd (fst row)))
    (zip_with (fun a e => (timestamp a, count a, count e)) l1 l2)
  = map (fun a => (timestamp a, count a)) l1.
Proof.
  revert l2. induction l1 as [|a l1 IH]; intros [|e l2] Hlen;
    cbn in *; try reflexivity; try lia.
  f_equal. apply IH. lia.
Qed.

Lemma zip_rows_ethereum (l1 l2 : list DailyTransactionCount) :
  length l1 = length l2 ->
  map snd (zip_with (fun a e => (timestamp a, count a, count e)) l1 l2)
  = map count l2.
Proof.
  revert l2. induction l1 as [|a l1 IH]; intros [|e l2] Hlen;
    cbn in *; try reflexivity; try lia.
  f_equal. apply IH. lia.
Qed.

(** X13: a successful alignment has between one row and as many rows as the
    project chart has points; the timestamps and project counts of the rows
    are those of the last points of the project chart, in order (no filler
    point is ever produced), and the Ethereum counts are those of the points
    that end, position by position, at the first Ethereum point with the last
    project timestamp. *)
Theorem alignActivityData_rows (api : list DailyTransactionCount)
    (ethereum : option (list DailyTransactionCount))
    (data : list ActivityApiChartPoint) :
  alignActivityData api ethereum = success data ->
  (1 <= length data <= length api)%nat
  /\ map (fun row => (fst (fst row), snd (fst row))) data
     = map (fun a => (timestamp a, count a))
         (drop (length api - length data) api)
  /\ exists (index : nat) (ethPoint lastPoint : DailyTransactionCount),
       last api = Some lastPoint
       /\ default [] ethereum !! index = Some ethPoint
       /\ timestamp ethPoint = timestamp lastPoint
       /\ (forall (j : nat) (x : DailyTransactionCount),
             default [] ethereum !! j = Some x ->
             (j < index)%nat -> timestamp x <> timestamp lastPoint)
       /\ length data = Nat.min (length api) (S index)
       /\ map snd data
          = map count
              (drop (S index - length data)
                 (take (S index) (default [] ethereum)))
       /\ last data
          = Some (timestamp lastPoint, count lastPoint, count ethPoint).
Proof.
  rewrite alignActivityData_spec.
  destruct (last api) as [lastPoint|] eqn:Elast; [|discriminate].
  destruct (list_find _ (default [] ethereum)) as [[index ethPoint]|] eqn:E;
    [|discriminate].
  cbv zeta. intros [= <-]. unfold ActivityApiChartPoint in *.
  apply list_find_Some in E. destruct E as (Hlook & Hts & Hfirst).
  apply Z.eqb_eq in Hts.
  pose proof (lookup_lt_Some _ _ _ Hlook) as Hindex.
  assert (Hapi : (1 <= length api)%nat).
  { destruct api; [discriminate|]. cbn. lia. }
  set (eth := default [] ethereum) in *.
  assert (Htake : length (take (S index) eth) = S index)
    by (rewrite length_take; lia).
  rewrite Htake.
  set (L := Z.min (Z.of_nat (length api)) (Z.of_nat (S index))).
  set (apiTail := drop (Z.to_nat (Z.of_nat (length api) - L)) api).
  set (ethTail := drop (Z.to_nat (Z.of_nat (S index) - L)) (take (S index) eth)).
  assert (HlenA : length apiTail = Z.to_nat L)
    by (subst apiTail L; rewrite length_drop; lia).
  assert (HlenE : length ethTail = Z.to_nat L)
    by (subst ethTail L; rewrite length_drop, Htake; lia).
  assert (Hlen : length (zip_with
                          (fun a e => (timestamp a, count a, count e))
                          apiTail ethTail) = Z.to_nat L)
    by (rewrite length_zip_with; lia).
  rewrite Hlen.
  assert (HL : Z.to_nat L = Nat.min (length api) (S index)) by (subst L; lia).
  split; [lia|]. split.
  { rewrite zip_rows_project by lia. subst apiTail. do 2 f_equal. lia. }
  exists index, ethPoint, lastPoint.
  split; [reflexivity|]. split; [exact Hlook|]. split; [exact Hts|].
  split.
  { intros j x Hj Hlt Heq. apply (Hfirst j x Hj Hlt).
    apply Z.eqb_eq. exact Heq. }
  split; [exact HL|]. split.
  { rewrite zip_rows_ethereum by lia. subst ethTail. do 2 f_equal. lia. }
  assert (HlastA : last apiTail = Some lastPoint).
  { subst apiTail. rewrite last_drop_lt by lia. exact Elast. }
  assert (HlastE : last ethTail = Some ethPoint).
  { subst ethTail. rewrite last_drop_lt by (rewrite Htake; lia).
    rewrite last_lookup, Htake. cbn [Nat.pred].
    rewrite lookup_take_lt by lia. exact Hlook. }
  destruct apiTail as [|a0 apiTail0] using rev_ind; [discriminate|].
  destruct ethTail as [|e0 ethTail0] using rev_ind; [discriminate|].
  rewrite last_snoc in HlastA, HlastE.
  injection HlastA as ->. injection HlastE as ->.
  rewrite !length_app in HlenA, HlenE. cbn [length] in HlenA, HlenE.
  rewrite zip_with_app by lia. cbn [zip_with]. apply last_snoc.
Qed.

(** X14: Ethereum points behind the first one that carries the last project
    timestamp do not matter: appending points to an Ethereum chart that
    already holds that timestamp leaves the result as it is. *)
Theorem alignActivityData_later_ethereum_ignored
    (api ethereum later : list DailyTransactionCount)
    (lastPoint : DailyTransactionCount) :
  last api = Some lastPoint ->
  Exists (fun x => timestamp x = timestamp lastPoint) ethereum ->
  alignActivityData api (Some (ethereum ++ later))
  = alignActivityData api (Some ethereum).
Proof.
  intros Hlast Hex. rewrite !alignActivityData_spec, Hlast.
  cbn [from_option id].
  destruct (list_find
              (fun x => (timestamp x =? timestamp lastPoint) = true) ethereum)
    as [[index found]|] eqn:E.
  - rewrite (list_find_app_l _ _ _ _ _ E).
    apply list_find_Some in E. destruct E as (Hlook & _ & _).
    apply lookup_lt_Some in Hlook.
    cbv zeta. rewrite take_app_le by lia. reflexivity.
  - apply list_find_None in E. apply Exists_exists in Hex.
    destruct Hex as (x & Hin & Hx).
    rewrite Forall_forall in E. exfalso.
    apply (E x); [exact Hin|].
    apply Z.eqb_eq. exact Hx.
Qed.

End ActivityFacts.

Section SlugFacts.
Import Activity2Controller.

Lemma findProjects_mapM (allProjects : list Project) (slugs : list string) :
  forall projects : list Project,
    findProjects allProjects slugs projects
    = fmap (app projects) (mapM (lookupSlug allProjects) slugs).
Proof.
  induction slugs as [|s slugs IH]; intros projects.
  - cbn. rewrite app_nil_r. reflexivity.
  - cbn [findProjects mapM].
    change (find _ allProjects) with (lookupSlug allProjects s).
    destruct (lookupSlug allProjects s) as [project|]; [|reflexivity].
    rewrite IH. cbn.
    destruct (mapM (lookupSlug allProjects) slugs) as [ps|]; cbn;
      [|reflexivity].
    rewrite <- app_assoc. reflexivity.
Qed.

Lemma lookupSlug_Some (allProjects : list Project) (s : string)
    (p : Project) :
  lookupSlug allProjects s = Some p ->
  In p allProjects /\ display_slug p = s.
Proof.
  unfold lookupSlug. intros Hfind. apply find_some in Hfind.
  destruct Hfind as [Hin Heq]. apply String.eqb_eq in Heq. auto.
Qed.

Lemma lookupSlug_None (allProjects : list Project) (s : string) :
  lookupSlug allProjects s = None <->
  Forall (fun p => display_slug p <> s) allProjects.
Proof.
  unfold lookupSlug. split.
  - intros Hnone. apply Forall_forall. intros p Hin Heq.
    apply list_elem_of_In in Hin.
    pose proof (find_none _ _ Hnone p Hin) as Hp. cbn in Hp.
    apply String.eqb_neq in Hp. contradiction.
  - intros Hall. induction Hall as [|p l Hp _ IH]; [reflexivity|].
    cbn. apply String.eqb_neq in Hp. rewrite Hp. exact IH.
Qed.

Lemma lookupSlug_app (layer2s layer3s : list Project) (s : string) :
  lookupSlug (layer2s ++ layer3s) s
  = match lookupSlug layer2s s with
    | Some p => Some p
    | None => lookupSlug layer3s s
    end.
Proof.
  unfold lookupSlug. induction layer2s as [|p l IH]; [reflexivity|].
  cbn. destruct (String.eqb (display_slug p) s); [reflexivity|exact IH].
Qed.

(** X15: [mapSlugsToProjectIds] succeeds exactly when there is at least one
    slug, every slug is that of some layer 2 or layer 3, and at least one of
    the projects found has a transaction API; it then returns one id per
    slug, in the order of the slugs, each the id of the first project with
    that slug. *)
Theorem mapSlugsToProjectIds_success
    (layer2s layer3s : list Project) (slugs ids : list string) :
  mapSlugsToProjectIds layer2s layer3s slugs = success ids
  <-> slugs <> []
      /\ exists projects : list Project,
           Forall2 (fun s p =>
                      find (fun project =>
                              String.eqb (display_slug project) s)
                        (layer2s ++ layer3s) = Some p)
             slugs projects
           /\ Exists (fun p => is_Some (config_transactionApi p)) projects
           /\ ids = map project_id projects.
Proof.
  assert (Hm : forall projects : list Project,
             Forall2 (fun s p =>
                        find (fun project =>
                                String.eqb (display_slug project) s)
                          (layer2s ++ layer3s) = Some p)
               slugs projects
             <-> mapM (lookupSlug (layer2s ++ layer3s)) slugs = Some projects)
    by (intros projects; symmetry; apply mapM_Some).
  unfold mapSlugsToProjectIds. rewrite findProjects_mapM.
  destruct slugs as [|s slugs].
  - cbn. split; [discriminate|]. intros [Hne _]. contradiction.
  - cbn [length Nat.eqb].
    destruct (mapM (lookupSlug (layer2s ++ layer3s)) (s :: slugs))
      as [projects|] eqn:E; cbn [fmap option_fmap option_map app].
    + destruct (existsb _ projects) eqn:Eapi; cbn [negb].
      * split.
        -- intros [= <-]. split; [discriminate|]. exists projects.
           split; [apply Hm; reflexivity|]. split; [|reflexivity].
           apply existsb_exists in Eapi. destruct Eapi as (p & Hin & Hp).
           apply Exists_exists. exists p.
           split; [apply list_elem_of_In; exact Hin|].
           apply bool_decide_eq_true in Hp. exact Hp.
        -- intros (_ & projects' & Hall & _ & ->).
           apply Hm in Hall. injection Hall as <-.
           reflexivity.
      * split; [discriminate|].
        intros (_ & projects' & Hall & Hex & _).
        apply Hm in Hall. injection Hall as <-.
        apply Exists_exists in Hex. destruct Hex as (p & Hin & Hp).
        assert (existsb
                  (fun p => bool_decide (is_Some (config_transactionApi p)))
                  projects = true) as Htrue.
        { apply existsb_exists. exists p.
          split; [apply list_elem_of_In; exact Hin|].
          apply bool_decide_eq_true. exact Hp. }
        congruence.
    + split; [discriminate|].
      intros (_ & projects & Hall & _).
      apply Hm in Hall. discriminate.
Qed.

(** X16: the errors of [mapSlugsToProjectIds]: [EMPTY_PROJECTS] exactly for no
    slug; [UNKNOWN_PROJECT] exactly when some slug is that of no project,
    whatever the transaction APIs of the others; [NO_TRANSACTION_API] exactly
    when every slug is known and none of the projects found has a
    transaction API. *)
Theorem mapSlugsToProjectIds_errors
    (layer2s layer3s : list Project) (slugs : list string) :
  (mapSlugsToProjectIds layer2s layer3s slugs = error EMPTY_PROJECTS
   <-> slugs = [])
  /\ (mapSlugsToProjectIds layer2s layer3s slugs = error UNKNOWN_PROJECT
      <-> slugs <> []
          /\ Exists (fun s =>
                       Forall (fun p => display_slug p <> s)
                         (layer2s ++ layer3s))
               slugs)
  /\ (mapSlugsToProjectIds layer2s layer3s slugs = error NO_TRANSACTION_API
      <-> slugs <> []
          /\ exists projects : list Project,
               Forall2 (fun s p =>
                          find (fun project =>
                                  String.eqb (display_slug project) s)
                            (layer2s ++ layer3s) = Some p)
                 slugs projects
               /\ Forall (fun p => config_transactionApi p = None) projects).
Proof.
  assert (Hm : forall projects : list Project,
             Forall2 (fun s p =>
                        find (fun project =>
                                String.eqb (display_slug project) s)
                          (layer2s ++ layer3s) = Some p)
               slugs projects
             <-> mapM (lookupSlug (layer2s ++ layer3s)) slugs = Some projects)
    by (intros projects; symmetry; apply mapM_Some).
  assert (Hnone : mapM (lookupSlug (layer2s ++ layer3s)) slugs = None
                  <-> Exists (fun s =>
                                Forall (fun p => display_slug p <> s)
                                  (layer2s ++ layer3s))
                        slugs).
  { clear Hm. induction slugs as [|s slugs IH].
    - cbn. split; [discriminate|]. intros Hex. inversion Hex.
    - cbn [mapM].
      destruct (lookupSlug (layer2s ++ layer3s) s) as [p|] eqn:E; cbn.
      + destruct (mapM (lookupSlug (layer2s ++ layer3s)) slugs) as [ps|];
          cbn.
        * split; [discriminate|]. intros Hex.
          inversion Hex as [? ? Hs|? ? Hrest]; subst.
          -- apply lookupSlug_None in Hs. congruence.
          -- apply IH in Hrest. discriminate.
        * split; [|reflexivity]. intros _. right. apply IH. reflexivity.
      + split; [|reflexivity]. intros _. left.
        apply lookupSlug_None. exact E. }
  unfold mapSlugsToProjectIds. rewrite findProjects_mapM.
  destruct slugs as [|s slugs].
  - cbn. split; [split; [reflexivity|reflexivity]|].
    split; (split; [discriminate|intros [Hne _]; contradiction]).
  - cbn [length Nat.eqb].
    destruct (mapM (lookupSlug (layer2s ++ layer3s)) (s :: slugs))
      as [projects|] eqn:E; cbn [fmap option_fmap option_map app].
    + assert (Hknown : ~ Exists (fun s0 =>
                                   Forall (fun p => display_slug p <> s0)
                                     (layer2s ++ layer3s))
                           (s :: slugs)).
      { intros Hex. apply Hnone in Hex. discriminate. }
      destruct (existsb _ projects) eqn:Eapi; cbn [negb].
      * split; [split; discriminate|].
        split; [split; [discriminate|intros [_ Hex]; contradiction]|].
        split; [discriminate|].
        intros (_ & projects' & Hall & Hno).
        apply Hm in Hall. injection Hall as <-.
        apply existsb_exists in Eapi. destruct Eapi as (p & Hin & Hp).
        apply bool_decide_eq_true in Hp.
        rewrite Forall_forall in Hno.
        apply list_elem_of_In in Hin. rewrite (Hno p Hin) in Hp.
        destruct Hp as [x Hx]. discriminate.
      * split; [split; discriminate|].
        split; [split; [discriminate|intros [_ Hex]; contradiction]|].
        split; [|reflexivity]. intros _. split; [discriminate|].
        exists projects. split; [apply Hm; reflexivity|].
        apply Forall_forall. intros p Hin.
        destruct (config_transactionApi p) as [api|] eqn:Ep; [|reflexivity].
        exfalso.
        assert (existsb
                  (fun p => bool_decide (is_Some (config_transactionApi p)))
                  projects = true) as Htrue.
        { apply existsb_exists. exists p.
          split; [apply list_elem_of_In; exact Hin|].
          apply bool_decide_eq_true. rewrite Ep. eauto. }
        congruence.
    + split; [split; discriminate|].
      split.
      * split; [|reflexivity]. intros _. split; [discriminate|].
        apply Hnone. reflexivity.
      * split; [discriminate|].
        intros (_ & projects & Hall & _). apply Hm in Hall. discriminate.
Qed.

(** X17: a slug shared by a layer 2 and a layer 3 stands for the layer 2:
    where some layer 2 has the i-th slug, the i-th id returned is that of a
    layer 2 with that slug. *)
Theorem mapSlugsToProjectIds_layer2_first
    (layer2s layer3s : list Project) (slugs ids : list string)
    (i : nat) (s : string) (p2 : Project) :
  mapSlugsToProjectIds layer2s layer3s slugs = success ids ->
  slugs !! i = Some s ->
  In p2 layer2s ->
  display_slug p2 = s ->
  exists p : Project,
    In p layer2s /\ display_slug p = s /\ ids !! i = Some (project_id p).
Proof.
  intros Hok Hs Hin Hslug.
  unfold mapSlugsToProjectIds in Hok. rewrite findProjects_mapM in Hok.
  destruct (length slugs =? 0)%nat; [discriminate|].
  destruct (mapM (lookupSlug (layer2s ++ layer3s)) slugs) as [projects|] eqn:E;
    cbn [fmap option_fmap option_map app] in Hok; [|discriminate].
  destruct (negb _); [discriminate|]. injection Hok as <-.
  apply mapM_Some in E.
  destruct (Forall2_lookup_l _ _ _ _ _ E Hs) as (p & Hp & Hfind).
  rewrite lookupSlug_app in Hfind.
  destruct (lookupSlug layer2s s) as [p'|] eqn:E2.
  - injection Hfind as ->. apply lookupSlug_Some in E2.
    destruct E2 as [Hin' Hslug']. exists p.
    repeat split; [assumption|assumption|].
    rewrite list_lookup_fmap, Hp. reflexivity.
  - apply lookupSlug_None in E2. rewrite Forall_forall in E2.
    exfalso. apply (E2 p2); [apply list_elem_of_In; exact Hin|exact Hslug].
Qed.

End SlugFacts.

Section ControllerFacts.
Import Activity2Controller.
Context {Chart EstimationInfo : Type}.
Context (postprocessCounts :
           list ActivityRecord -> bool -> Z -> list DailyTransactionCount).
Context (toCombinedActivity :
           JsMap (list DailyTransactionCount)
           -> list DailyTransactionCount * EstimationInfo).
Context (formatActivityChart : list ActivityApiChartPoint -> Chart).

(** ** The map *)

Lemma mapGet_mapSet_eq {V} (m : JsMap V) (key : string) (v : V) :
  mapGet (mapSet m key v) key = Some v.
Proof.
  unfold mapGet. induction m as [|[key' v'] m IH]; cbn.
  - rewrite String.eqb_refl. reflexivity.
  - destruct (String.eqb key' key) eqn:E; cbn.
    + rewrite String.eqb_refl. reflexivity.
    + rewrite E. exact IH.
Qed.

Lemma mapGet_mapSet_ne {V} (m : JsMap V) (key key' : string) (v : V) :
  key <> key' -> mapGet (mapSet m key v) key' = mapGet m key'.
Proof.
  intros Hne. unfold mapGet. induction m as [|[k0 v0] m IH]; cbn.
  - apply String.eqb_neq in Hne. rewrite Hne. reflexivity.
  - destruct (String.eqb k0 key) eqn:E; cbn.
    + apply String.eqb_eq in E. subst k0.
      apply String.eqb_neq in Hne. rewrite Hne. reflexivity.
    + destruct (String.eqb k0 key'); [reflexivity|exact IH].
Qed.

Lemma mapSet_keys {V} (m : JsMap V) (key : string) (v : V) :
  forall k : string, In k (map fst (mapSet m key v)) <-> k = key \/ In k (map fst m).
Proof.
  intros k. induction m as [|[k0 v0] m IH]; cbn.
  - split; [intros [->|[]]; auto|intros [->|[]]; auto].
  - destruct (String.eqb k0 key) eqn:E; cbn.
    + apply String.eqb_eq in E. subst k0. intuition congruence.
    + rewrite IH. intuition congruence.
Qed.

Lemma mapSet_NoDup {V} (m : JsMap V) (key : string) (v : V) :
  NoDup (map fst m) -> NoDup (map fst (mapSet m key v)).
Proof.
  induction m as [|[k0 v0] m IH]; cbn; intros Hnd.
  - repeat constructor. intros Hin. inversion Hin.
  - inversion Hnd as [|? ? Hnotin Hrest]; subst.
    destruct (String.eqb k0 key) eqn:E; cbn.
    + apply String.eqb_eq in E. subst k0. constructor; assumption.
    + constructor; [|apply IH; exact Hrest].
      rewrite list_elem_of_In, mapSet_keys. intros [->|Hin].
      * rewrite String.eqb_refl in E. discriminate.
      * apply Hnotin. apply list_elem_of_In. exact Hin.
Qed.

Lemma mapGet_None {V} (m : JsMap V) (key : string) :
  mapGet m key = None <-> ~ In key (map fst m).
Proof.
  unfold mapGet. induction m as [|[k0 v0] m IH]; cbn.
  - tauto.
  - destruct (String.eqb k0 key) eqn:E; cbn.
    + apply String.eqb_eq in E. split; [discriminate|]. intros Hn.
      exfalso. apply Hn. auto.
    + apply String.eqb_neq in E. rewrite IH. intuition congruence.
Qed.


(** ** [getPostprocessedDailyCounts] *)

Lemma postprocessProjects_step (ids : list string)
    (counts : list ActivityRecord) (today : Z) (projectId : string)
    (rest : list string) (result : JsMap (list DailyTransactionCount)) :
  postprocessProjects postprocessCounts ids counts today (projectId :: rest)
    result
  = postprocessProjects postprocessCounts ids counts today rest
      match postprocessedEntry postprocessCounts ids counts today projectId
      with
      | Some v => mapSet result projectId v
      | None => result
      end.
Proof.
  cbn [postprocessProjects]. unfold postprocessedEntry.
  rewrite at_last.
  destruct (negb (existsb (String.eqb projectId) ids)); [reflexivity|].
  destruct (from_option _ false (last _)); [reflexivity|].
  destruct (postprocessCounts _ _ today); reflexivity.
Qed.

Lemma postprocessProjects_get (ids : list string)
    (counts : list ActivityRecord) (today : Z) (remaining : list string) :
  forall (result : JsMap (list DailyTransactionCount)) (key : string),
    mapGet (postprocessProjects postprocessCounts ids counts today remaining
              result) key
    = match postprocessedEntry postprocessCounts ids counts today key with
      | Some v => if existsb (String.eqb key) remaining then Some v
                  else mapGet result key
      | None => mapGet result key
      end.
Proof.
  induction remaining as [|projectId rest IH]; intros result key.
  - cbn. destruct (postprocessedEntry _ _ _ _ key); reflexivity.
  - rewrite postprocessProjects_step, IH. cbn [existsb].
    destruct (String.eqb_spec key projectId) as [->|Hne].
    + destruct (postprocessedEntry _ _ _ _ projectId) as [v|];
        [|reflexivity].
      cbn [orb]. destruct (existsb _ rest); [reflexivity|].
      apply mapGet_mapSet_eq.
    + cbn [orb].
      destruct (postprocessedEntry _ _ _ _ key) as [v|].
      * destruct (existsb _ rest); [reflexivity|].
        destruct (postprocessedEntry _ _ _ _ projectId); [|reflexivity].
        apply mapGet_mapSet_ne. congruence.
      * destruct (postprocessedEntry _ _ _ _ projectId); [|reflexivity].
        apply mapGet_mapSet_ne. congruence.
Qed.

Lemma postprocessProjects_keys (ids : list string)
    (counts : list ActivityRecord) (today : Z) (remaining : list string) :
  forall result : JsMap (list DailyTransactionCount),
    NoDup (map fst result) ->
    NoDup (map fst (postprocessProjects postprocessCounts ids counts today
                      remaining result)).
Proof.
  induction remaining as [|projectId rest IH]; intros result Hnd;
    [exact Hnd|].
  rewrite postprocessProjects_step. apply IH.
  destruct (postprocessedEntry _ _ _ _ projectId);
    [apply mapSet_NoDup|]; exact Hnd.
Qed.

Lemma existsb_eqb_In (key : string) (l : list string) :
  existsb (String.eqb key) l = true <-> In key l.
Proof.
  rewrite existsb_exists. split.
  - intros (x & Hin & Heq). apply String.eqb_eq in Heq. subst. exact Hin.
  - intros Hin. exists key. split; [exact Hin|apply String.eqb_refl].
Qed.

Lemma getPostprocessedDailyCounts_NoDup (ids : list string)
    (counts : list ActivityRecord) (today : Z) :
  NoDup (map fst
           (getPostprocessedDailyCounts postprocessCounts ids counts today)).
Proof. apply postprocessProjects_keys. constructor. Qed.

Lemma getPostprocessedDailyCounts_In (ids : list string)
    (counts : list ActivityRecord) (today : Z) (projectId : string)
    (v : list DailyTransactionCount) :
  mapGet (getPostprocessedDailyCounts postprocessCounts ids counts today)
    projectId = Some v ->
  In projectId ids.
Proof.
  unfold getPostprocessedDailyCounts. rewrite postprocessProjects_get.
  destruct (postprocessedEntry _ _ _ _ projectId); [|discriminate].
  destruct (existsb (String.eqb projectId) ids) eqn:E; [|discriminate].
  intros _. apply existsb_eqb_In. exact E.
Qed.

(** X18: the map of [getPostprocessedDailyCounts] holds a project id exactly
    when it is one of the controller's ids, the last of its rows is not more
    than seven days older than today, and [postprocessCounts] of its rows is
    not empty; the value is that result, no key occurs twice, and a project
    with older rows is left out whatever [postprocessCounts] gives. *)
Theorem getPostprocessedDailyCounts_lookup
    (ids : list string) (counts : list ActivityRecord) (today : Z)
    (projectId : string) (v : list DailyTransactionCount) :
  let projectCounts :=
    List.filter (fun c => String.eqb (record_projectId c) projectId) counts in
  let synced :=
    from_option (fun c => record_timestamp c =? today) false
      (last projectCounts) in
  (mapGet (getPostprocessedDailyCounts postprocessCounts ids counts today)
     projectId = Some v
   <-> In projectId ids
       /\ (forall c : ActivityRecord,
             last projectCounts = Some c ->
             today - 7 * DAY <= record_timestamp c)
       /\ v = postprocessCounts projectCounts synced today
       /\ v <> [])
  /\ NoDup (map fst
              (getPostprocessedDailyCounts postprocessCounts ids counts today)).
Proof.
  intros projectCounts synced. split.
  - unfold getPostprocessedDailyCounts. rewrite postprocessProjects_get.
    unfold postprocessedEntry. fold projectCounts. fold synced.
    change (mapGet [] projectId) with (@None (list DailyTransactionCount)).
    destruct (existsb (String.eqb projectId) ids) eqn:Ein; cbn [negb].
    + apply existsb_eqb_In in Ein.
      destruct (last projectCounts) as [c|] eqn:Elast; cbn [from_option].
      * destruct (Z.ltb_spec (record_timestamp c) (today + -7 * DAY))
          as [Hstale|Hfresh].
        -- split; [discriminate|]. intros (_ & Hc & _).
           specialize (Hc c eq_refl). lia.
        -- destruct (postprocessCounts projectCounts synced today)
             as [|d ds] eqn:Epost.
           ++ split; [discriminate|]. intros (_ & _ & -> & Hne).
              contradiction.
           ++ split.
              ** intros [= <-]. split; [exact Ein|].
                 split; [intros c' [= <-]; lia|].
                 split; [reflexivity|discriminate].
              ** intros (_ & _ & -> & _). reflexivity.
      * destruct (postprocessCounts projectCounts synced today)
          as [|d ds] eqn:Epost.
        -- split; [discriminate|]. intros (_ & _ & -> & Hne).
           contradiction.
        -- split.
           ++ intros [= <-]. split; [exact Ein|].
              split; [intros c' Hc'; discriminate|].
              split; [reflexivity|discriminate].
           ++ intros (_ & _ & -> & _). reflexivity.
    + split; [discriminate|]. intros (Hin & _).
      apply existsb_eqb_In in Hin. congruence.
  - apply getPostprocessedDailyCounts_NoDup.
Qed.


(** ** [getActivity] *)

Lemma mapGet_cons {V} (key0 : string) (v0 : V) (m : JsMap V) (key : string) :
  mapGet ((key0, v0) :: m) key
  = if String.eqb key0 key then Some v0 else mapGet m key.
Proof. unfold mapGet. cbn. destruct (String.eqb key0 key); reflexivity. Qed.

Lemma splitCounts_spec (ids : list string)
    (dbCounts : JsMap (list DailyTransactionCount)) :
  NoDup (map fst dbCounts) ->
  forall (projectCounts : JsMap (list DailyTransactionCount))
         (ethereumCounts : option (list DailyTransactionCount)),
    (forall key : string,
        mapGet (fst (splitCounts ids dbCounts projectCounts ethereumCounts))
          key
        = match mapGet dbCounts key with
          | Some v =>
              if String.eqb key ETHEREUM
                 || negb (existsb (String.eqb key) ids)
              then mapGet projectCounts key
              else Some v
          | None => mapGet projectCounts key
          end)
    /\ snd (splitCounts ids dbCounts projectCounts ethereumCounts)
       = match mapGet dbCounts ETHEREUM with
         | Some v => Some v
         | None => ethereumCounts
         end
    /\ (NoDup (map fst projectCounts) ->
        NoDup (map fst
                 (fst (splitCounts ids dbCounts projectCounts
                         ethereumCounts)))).
Proof.
  induction dbCounts as [|[key0 v0] rest IH]; intros Hnd pc eth.
  - cbn. repeat split; auto.
  - cbn [map fst] in Hnd. inversion Hnd as [|? ? Hnotin Hrest]; subst.
    assert (Hnone : mapGet rest key0 = None).
    { apply mapGet_None. rewrite <- list_elem_of_In. exact Hnotin. }
    cbn [splitCounts].
    destruct (String.eqb_spec key0 ETHEREUM) as [->|Hne0].
    + destruct (IH Hrest pc (Some v0)) as (Hget & Heth & Hkeys).
      split; [|split].
      * intros key. rewrite Hget, mapGet_cons.
        destruct (String.eqb_spec ETHEREUM key) as [<-|Hne].
        -- rewrite Hnone, String.eqb_refl. reflexivity.
        -- reflexivity.
      * rewrite Heth, mapGet_cons, String.eqb_refl, Hnone. reflexivity.
      * exact Hkeys.
    + destruct (negb (existsb (String.eqb key0) ids)) eqn:Ein.
      * destruct (IH Hrest pc eth) as (Hget & Heth & Hkeys).
        split; [|split].
        -- intros key. rewrite Hget, mapGet_cons.
           destruct (String.eqb_spec key0 key) as [<-|Hne].
           ++ rewrite Hnone, Ein, orb_true_r. reflexivity.
           ++ reflexivity.
        -- rewrite Heth, mapGet_cons.
           destruct (String.eqb_spec key0 ETHEREUM); [contradiction|].
           reflexivity.
        -- exact Hkeys.
      * destruct (IH Hrest (mapSet pc key0 v0) eth) as (Hget & Heth & Hkeys).
        split; [|split].
        -- intros key. rewrite Hget, mapGet_cons.
           destruct (String.eqb_spec key0 key) as [<-|Hne].
           ++ rewrite Hnone, Ein, mapGet_mapSet_eq.
              destruct (String.eqb_spec key0 ETHEREUM); [contradiction|].
              reflexivity.
           ++ rewrite mapGet_mapSet_ne by exact Hne. reflexivity.
        -- rewrite Heth, mapGet_cons.
           destruct (String.eqb_spec key0 ETHEREUM); [contradiction|].
           reflexivity.
        -- intros Hpc. apply Hkeys. apply mapSet_NoDup. exact Hpc.
Qed.

Lemma alignProjects_success
    (entries : JsMap (list DailyTransactionCount))
    (ethereumCounts : option (list DailyTransactionCount)) :
  NoDup (map fst entries) ->
  forall acc r : gmap string Chart,
    alignProjects formatActivityChart entries ethereumCounts acc = success r ->
    forall key : string,
      match mapGet entries key with
      | Some v =>
          exists data : list ActivityApiChartPoint,
            alignActivityData v ethereumCounts = success data
            /\ r !! key = Some (formatActivityChart data)
      | None => r !! key = acc !! key
      end.
Proof.
  induction entries as [|[key0 v0] rest IH]; intros Hnd acc r Hok key.
  - cbn in *. injection Hok as <-. reflexivity.
  - cbn [map fst] in Hnd. inversion Hnd as [|? ? Hnotin Hrest]; subst.
    assert (Hnone : mapGet rest key0 = None).
    { apply mapGet_None. rewrite <- list_elem_of_In. exact Hnotin. }
    cbn [alignProjects] in Hok.
    destruct (alignActivityData v0 ethereumCounts) as [data|e] eqn:Ealign;
      [|discriminate].
    specialize (IH Hrest _ _ Hok). rewrite mapGet_cons.
    destruct (String.eqb_spec key0 key) as [<-|Hne].
    + exists data. split; [exact Ealign|].
      specialize (IH key0). rewrite Hnone in IH. rewrite IH.
      apply lookup_insert_eq.
    + specialize (IH key). destruct (mapGet rest key); [exact IH|].
      rewrite IH. apply lookup_insert_ne. exact Hne.
Qed.

(** X19: [getActivity] succeeds only if the Ethereum chart is there, that is
    only if ["ethereum"] is one of the controller's project ids and has
    postprocessed counts; and Ethereum is never one of the [projects] of the
    response. *)
Theorem getActivity_needs_ethereum
    (ids : list string) (counts : list ActivityRecord) (today : Z)
    (r : ActivityApiResponse) :
  getActivity postprocessCounts toCombinedActivity formatActivityChart
    ids counts today = success r ->
  In ETHEREUM ids
  /\ is_Some (mapGet
                (getPostprocessedDailyCounts postprocessCounts ids counts
                   today) ETHEREUM)
  /\ projects r !! ETHEREUM = None.
Proof.
  unfold getActivity.
  set (db := getPostprocessedDailyCounts postprocessCounts ids counts today).
  pose proof (getPostprocessedDailyCounts_NoDup ids counts today) as Hnd.
  fold db in Hnd.
  destruct (splitCounts_spec ids db Hnd [] None) as (Hget & Heth & Hkeys).
  destruct (splitCounts ids db [] None) as [pc eth]. cbn [fst snd] in *.
  destruct (toCombinedActivity pc) as [daily info].
  destruct (alignActivityData daily eth) as [combinedData|e] eqn:Ecombined;
    [|discriminate].
  destruct (alignProjects formatActivityChart pc eth ∅) as [ps|e] eqn:Eps;
    [|discriminate].
  intros [= <-]. cbn [projects].
  assert (Hsome : is_Some (mapGet db ETHEREUM)).
  { destruct (mapGet db ETHEREUM); [eauto|].
    subst eth. rewrite alignActivityData_spec in Ecombined.
    destruct (last daily); cbn in Ecombined; discriminate. }
  split; [|split; [exact Hsome|]].
  - destruct Hsome as [v Hv].
    eapply getPostprocessedDailyCounts_In. exact Hv.
  - pose proof (alignProjects_success pc eth (Hkeys ltac:(constructor))
                  ∅ ps Eps ETHEREUM) as Hps.
    rewrite Hget in Hps.
    destruct (mapGet db ETHEREUM); cbn in Hps;
      rewrite Hps; apply lookup_empty.
Qed.

(** X20: a successful [getActivity] is all or nothing: every other project of
    the postprocessed map has been aligned with the Ethereum chart, its entry
    in [projects] is the formatted alignment, and [projects] has no other
    entries. *)
Theorem getActivity_projects
    (ids : list string) (counts : list ActivityRecord) (today : Z)
    (r : ActivityApiResponse) (projectId : string) :
  getActivity postprocessCounts toCombinedActivity formatActivityChart
    ids counts today = success r ->
  projectId <> ETHEREUM ->
  let dbCounts :=
    getPostprocessedDailyCounts postprocessCounts ids counts today in
  match mapGet dbCounts projectId with
  | Some v =>
      exists data : list ActivityApiChartPoint,
        alignActivityData v (mapGet dbCounts ETHEREUM) = success data
        /\ projects r !! projectId = Some (formatActivityChart data)
  | None => projects r !! projectId = None
  end.
Proof.
  intros Hok Hne db. revert Hok. unfold getActivity. fold db.
  pose proof (getPostprocessedDailyCounts_NoDup ids counts today) as Hnd.
  fold db in Hnd.
  destruct (splitCounts_spec ids db Hnd [] None) as (Hget & Heth & Hkeys).
  destruct (splitCounts ids db [] None) as [pc eth]. cbn [fst snd] in *.
  destruct (toCombinedActivity pc) as [daily info].
  destruct (alignActivityData daily eth) as [combinedData|e]; [|discriminate].
  destruct (alignProjects formatActivityChart pc eth ∅) as [ps|e] eqn:Eps;
    [|discriminate].
  intros [= <-]. cbn [projects].
  pose proof (alignProjects_success pc eth (Hkeys ltac:(constructor))
                ∅ ps Eps projectId) as Hps.
  rewrite Hget in Hps.
  assert (Heth' : eth = mapGet db ETHEREUM).
  { rewrite Heth. destruct (mapGet db ETHEREUM); reflexivity. }
  destruct (mapGet db projectId) as [v|] eqn:Ev.
  - assert (Hin : existsb (String.eqb projectId) ids = true).
    { apply existsb_eqb_In.
      eapply getPostprocessedDailyCounts_In. exact Ev. }
    rewrite Hin in Hps.
    destruct (String.eqb_spec projectId ETHEREUM); [contradiction|].
    cbn in Hps. rewrite <- Heth'. exact Hps.
  - cbn in Hps. rewrite Hps. apply lookup_empty.
Qed.

End ControllerFacts.

(** * The further facts on concrete inputs *)

Section ConcreteMore.
Import ArbitrumDACKeyset DiscoveryRunner Activity2Controller.

#[local] Existing Instance Sample.runtime.
#[local] Existing Instance Sample.abi.

Lemma decodeLastEvent_short_payload_witness :
  let payload := [x00; x00; x00; x00; x00; x00; x00; x02; x00; x03] in
  let lastEvent := Sample.logOf payload in
  (decodeEventLog_keysetBytes (log_data lastEvent) = Ok payload
   /\ Bytes.length payload < 16
   /\ Bytes.toNumber (Bytes.slice payload 8 16) < 2 ^ 32)
  /\ decodeLastEvent ([] ++ [lastEvent])
     = Throw (Sample.ErrorObject "Assertion Error: ").
Proof.
  intros payload lastEvent.
  assert (H1 : decodeEventLog_keysetBytes (log_data lastEvent) = Ok payload)
    by reflexivity.
  assert (H2 : Bytes.length payload < 16) by reflexivity.
  assert (H3 : Bytes.toNumber (Bytes.slice payload 8 16) < 2 ^ 32)
    by reflexivity.
  split; [exact (conj H1 (conj H2 H3))|].
  exact (decodeLastEvent_short_payload [] lastEvent payload H1 H2 H3).
Defined.

Lemma decodeLastEvent_members_fit_witness :
  let payload := keysetLayout 2 Sample.threeKeys in
  let lastEvent := Sample.logOf payload in
  let k := {| requiredSignatures := 2;
              membersCount := 3;
              blsSignatures := map base64_encode Sample.threeKeys |} in
  (decodeEventLog_keysetBytes (log_data lastEvent) = Ok payload
   /\ decodeLastEvent ([] ++ [lastEvent]) = Ok k)
  /\ Z.of_nat (length (blsSignatures k)) = 3
  /\ 16 + 2 * 3 <= Bytes.length payload.
Proof.
  intros payload lastEvent k.
  assert (H1 : decodeEventLog_keysetBytes (log_data lastEvent) = Ok payload)
    by reflexivity.
  assert (H2 : decodeLastEvent ([] ++ [lastEvent]) = Ok k) by reflexivity.
  split; [exact (conj H1 H2)|].
  destruct (decodeLastEvent_members_fit [] lastEvent payload k H1 H2)
    as (Hlen & _ & Hfit).
  split; [exact Hlen|exact Hfit].
Defined.

Lemma decodeLastEvent_threshold_range_witness :
  let payload := keysetLayout 0 Sample.threeKeys in
  let lastEvent := Sample.logOf payload in
  let k := {| requiredSignatures := 4;
              membersCount := 3;
              blsSignatures := map base64_encode Sample.threeKeys |} in
  (decodeEventLog_keysetBytes (log_data lastEvent) = Ok payload
   /\ Bytes.toNumber (Bytes.slice payload 0 8) < 2 ^ 53
   /\ decodeLastEvent ([] ++ [lastEvent]) = Ok k)
  /\ 3 - 2 ^ 53 + 2 <= requiredSignatures k <= 3 + 1.
Proof.
  intros payload lastEvent k.
  assert (H1 : decodeEventLog_keysetBytes (log_data lastEvent) = Ok payload)
    by reflexivity.
  assert (H2 : Bytes.toNumber (Bytes.slice payload 0 8) < 2 ^ 53)
    by reflexivity.
  assert (H3 : decodeLastEvent ([] ++ [lastEvent]) = Ok k) by reflexivity.
  split; [exact (conj H1 (conj H2 H3))|].
  exact (proj2 (decodeLastEvent_threshold_range [] lastEvent payload k
                  H1 H2 H3)).
Defined.

Lemma decodeLastEvent_no_extension_witness :
  let payload := keysetLayout 2 Sample.threeKeys in
  let extra := [x00] in
  let shorter := Sample.logOf payload in
  let longer := Sample.logOf (payload ++ extra) in
  let k := {| requiredSignatures := 2;
              membersCount := 3;
              blsSignatures := map base64_encode Sample.threeKeys |} in
  (decodeEventLog_keysetBytes (log_data shorter) = Ok payload
   /\ decodeEventLog_keysetBytes (log_data longer) = Ok (payload ++ extra)
   /\ extra <> []
   /\ decodeLastEvent [shorter] = Ok k)
  /\ decodeLastEvent [longer]
     = Throw (Sample.ErrorObject "Assertion Error: ").
Proof.
  intros payload extra shorter longer k.
  assert (H1 : decodeEventLog_keysetBytes (log_data shorter) = Ok payload)
    by reflexivity.
  assert (H2 : decodeEventLog_keysetBytes (log_data longer)
               = Ok (payload ++ extra)) by reflexivity.
  assert (H3 : extra <> []) by discriminate.
  assert (H4 : decodeLastEvent [shorter] = Ok k) by reflexivity.
  split; [exact (conj H1 (conj H2 (conj H3 H4)))|].
  exact (decodeLastEvent_no_extension shorter longer payload extra k
           H1 H2 H3 H4).
Defined.

Lemma discoverWithRetry_negative_budget_witness :
  default MAX_RETRIES (Some (-1)) < 0
  /\ @discoverWithRetry _ Sample.healthy Sample.config 7 (Some (-1)) None
       Sample.start
     = (Throw (Sample.ErrorObject
                 "Assertion Error: Programmer error: Error should not be undefined there"),
        Sample.start).
Proof.
  assert (H1 : default MAX_RETRIES (Some (-1)) < 0) by reflexivity.
  split; [exact H1|].
  exact (@discoverWithRetry_negative_budget _ Sample.healthy Sample.config 7
           (Some (-1)) None Sample.start H1).
Defined.

Lemma run_without_injection_witness :
  let options := {| injectInitialAddresses := false;
                    maxRetries := Some 0;
                    retryDelayMs := None |} in
  injectInitialAddresses options = false
  /\ @run _ Sample.healthy Sample.runner Sample.config 7 options Sample.start
     = @discoverWithRetry _ Sample.healthy Sample.config 7 (Some 0) None
         Sample.start.
Proof.
  intros options.
  assert (H1 : injectInitialAddresses options = false) by reflexivity.
  split; [exact H1|].
  exact (proj1 (@run_without_injection _ Sample.healthy Sample.runner
                  Sample.config 7 options Sample.start H1)).
Defined.

Lemma run_read_failure_not_retried_witness :
  let options := {| injectInitialAddresses := true;
                    maxRetries := None;
                    retryDelayMs := None |} in
  (injectInitialAddresses options = true
   /\ @configReader_readDiscovery _ SampleMore.unreadable
        (config_name Sample.config) (this_chain Sample.runner)
      = Throw (Sample.ErrorObject "ENOENT"))
  /\ @run _ SampleMore.unreadable Sample.runner Sample.config 7 options
       Sample.start
     = (Throw (Sample.ErrorObject "ENOENT"),
        {| calls := 0; trace := [EvReadDiscovery "project" "ethereum"] |}).
Proof.
  intros options.
  assert (H1 : injectInitialAddresses options = true) by reflexivity.
  assert (H2 : @configReader_readDiscovery _ SampleMore.unreadable
                 (config_name Sample.config) (this_chain Sample.runner)
               = Throw (Sample.ErrorObject "ENOENT")) by reflexivity.
  split; [exact (conj H1 H2)|].
  exact (@run_read_failure_not_retried _ SampleMore.unreadable Sample.runner
           Sample.config 7 options Sample.start _ H1 H2).
Defined.

Lemma discover_fails_before_metrics_witness :
  (exists provider : unit,
      @allProviders_get _ Sample.broken (calls Sample.start)
        (config_chain Sample.config) 7 = Ok provider
      /\ @discoveryEngine_discover _ Sample.broken (calls Sample.start)
           provider Sample.config = Throw (Sample.ErrorObject "boom"))
  /\ fst (@discover _ Sample.broken Sample.config 7 Sample.start)
     = Throw (Sample.ErrorObject "boom")
  /\ gaugeSets (trace (snd (@discover _ Sample.broken Sample.config 7
                              Sample.start))) = [].
Proof.
  assert (H1 : exists provider : unit,
             @allProviders_get _ Sample.broken (calls Sample.start)
               (config_chain Sample.config) 7 = Ok provider
             /\ @discoveryEngine_discover _ Sample.broken (calls Sample.start)
                  provider Sample.config = Throw (Sample.ErrorObject "boom"))
    by (exists tt; split; reflexivity).
  split; [exact H1|].
  destruct (@discover_fails_before_metrics _ Sample.broken Sample.config 7
              Sample.start (Sample.ErrorObject "boom") (or_intror H1))
    as (evs & Hrun & Hsets & _).
  rewrite Hrun. cbn [fst snd trace Sample.start app].
  split; [reflexivity|exact Hsets].
Defined.

Lemma discover_fails_after_metrics_witness :
  (@allProviders_get _ SampleMore.unconvertible (calls Sample.start)
     (config_chain Sample.config) 7 = Ok tt
   /\ @discoveryEngine_discover _ SampleMore.unconvertible
        (calls Sample.start) tt Sample.config = Ok tt
   /\ @toDiscoveryOutput _ SampleMore.unconvertible
        (config_name Sample.config) (config_chain Sample.config)
        (@config_hash _ SampleMore.unconvertible Sample.config) 7 tt
      = Throw (Sample.ErrorObject "bad graph"))
  /\ fst (@discover _ SampleMore.unconvertible Sample.config 7 Sample.start)
     = Throw (Sample.ErrorObject "bad graph")
  /\ length (gaugeSets
               (trace (snd (@discover _ SampleMore.unconvertible
                              Sample.config 7 Sample.start))))
     = 12%nat.
Proof.
  assert (H1 : @allProviders_get _ SampleMore.unconvertible
                 (calls Sample.start) (config_chain Sample.config) 7 = Ok tt)
    by reflexivity.
  assert (H2 : @discoveryEngine_discover _ SampleMore.unconvertible
                 (calls Sample.start) tt Sample.config = Ok tt)
    by reflexivity.
  assert (H3 : @toDiscoveryOutput _ SampleMore.unconvertible
                 (config_name Sample.config) (config_chain Sample.config)
                 (@config_hash _ SampleMore.unconvertible Sample.config) 7 tt
               = Throw (Sample.ErrorObject "bad graph")) by reflexivity.
  split; [exact (conj H1 (conj H2 H3))|].
  destruct (@discover_fails_after_metrics _ SampleMore.unconvertible
              Sample.config 7 Sample.start tt tt
              (Sample.ErrorObject "bad graph") H1 H2 (or_introl H3))
    as (evs & Hrun & _ & Hlen).
  rewrite Hrun. cbn [fst snd trace Sample.start app].
  split; [reflexivity|exact Hlen].
Defined.



Lemma alignActivityData_rows_witness :
  let data := [(86400, 10, 100); (172800, 20, 200); (259200, 30, 300)] in
  alignActivityData SampleMore.projectChart (Some SampleMore.ethereumChart)
  = success data
  /\ (1 <= length data <= length SampleMore.projectChart)%nat.
Proof.
  intros data.
  assert (H1 : alignActivityData SampleMore.projectChart
                 (Some SampleMore.ethereumChart) = success data)
    by reflexivity.
  split; [exact H1|].
  exact (proj1 (alignActivityData_rows SampleMore.projectChart
                  (Some SampleMore.ethereumChart) data H1)).
Defined.

Lemma alignActivityData_later_ethereum_ignored_witness :
  let lastPoint := SampleMore.point 259200 30 in
  let later := [SampleMore.point 345600 400] in
  (last SampleMore.projectChart = Some lastPoint
   /\ Exists (fun x => timestamp x = timestamp lastPoint)
        SampleMore.ethereumChart)
  /\ alignActivityData SampleMore.projectChart
       (Some (SampleMore.ethereumChart ++ later))
     = alignActivityData SampleMore.projectChart
         (Some SampleMore.ethereumChart).
Proof.
  intros lastPoint later.
  assert (H1 : last SampleMore.projectChart = Some lastPoint) by reflexivity.
  assert (H2 : Exists (fun x => timestamp x = timestamp lastPoint)
                 SampleMore.ethereumChart).
  { do 3 apply Exists_cons_tl. apply Exists_cons_hd. reflexivity. }
  split; [exact (conj H1 H2)|].
  exact (alignActivityData_later_ethereum_ignored SampleMore.projectChart
           SampleMore.ethereumChart later lastPoint H1 H2).
Defined.

Lemma mapSlugsToProjectIds_layer2_first_witness :
  let slugs := ["xai"; "arbitrum"] in
  let p2 := {| project_id := "arbitrum"; display_slug := "arbitrum";
               config_transactionApi := Some "rpc" |} in
  (mapSlugsToProjectIds SampleMore.layer2s SampleMore.layer3s slugs
   = success ["xai"; "arbitrum"]
   /\ slugs !! 1%nat = Some "arbitrum"
   /\ In p2 SampleMore.layer2s
   /\ display_slug p2 = "arbitrum")
  /\ exists p : Project,
       In p SampleMore.layer2s
       /\ display_slug p = "arbitrum"
       /\ ["xai"; "arbitrum"] !! 1%nat = Some (project_id p).
Proof.
  intros slugs p2.
  assert (H1 : mapSlugsToProjectIds SampleMore.layer2s SampleMore.layer3s
                 slugs = success ["xai"; "arbitrum"]) by reflexivity.
  assert (H2 : slugs !! 1%nat = Some "arbitrum") by reflexivity.
  assert (H3 : In p2 SampleMore.layer2s) by (left; reflexivity).
  assert (H4 : display_slug p2 = "arbitrum") by reflexivity.
  split; [exact (conj H1 (conj H2 (conj H3 H4)))|].
  exact (mapSlugsToProjectIds_layer2_first SampleMore.layer2s
           SampleMore.layer3s slugs ["xai"; "arbitrum"] 1 "arbitrum" p2
           H1 H2 H3 H4).
Defined.

Lemma getActivity_needs_ethereum_witness :
  let r := {| combined := ([(172800, 20, 200); (259200, 30, 300)], tt);
              projects :=
                {[ "arbitrum" := [(172800, 20, 200); (259200, 30, 300)] ]} |} in
  getActivity SampleMore.postprocess SampleMore.combine SampleMore.format
    SampleMore.controllerIds SampleMore.rows SampleMore.today = success r
  /\ In ETHEREUM SampleMore.controllerIds
  /\ projects r !! ETHEREUM = None.
Proof.
  intros r.
  assert (H1 : getActivity SampleMore.postprocess SampleMore.combine
                 SampleMore.format SampleMore.controllerIds SampleMore.rows
                 SampleMore.today = success r) by (vm_compute; reflexivity).
  split; [exact H1|].
  destruct (getActivity_needs_ethereum SampleMore.postprocess
              SampleMore.combine SampleMore.format SampleMore.controllerIds
              SampleMore.rows SampleMore.today r H1) as (Hin & _ & Hnone).
  split; [exact Hin|exact Hnone].
Defined.

Lemma getActivity_projects_witness :
  let r := {| combined := ([(172800, 20, 200); (259200, 30, 300)], tt);
              projects :=
                {[ "arbitrum" := [(172800, 20, 200); (259200, 30, 300)] ]} |} in
  (getActivity SampleMore.postprocess SampleMore.combine SampleMore.format
     SampleMore.controllerIds SampleMore.rows SampleMore.today = success r
   /\ "stale" <> ETHEREUM)
  /\ projects r !! "stale" = None.
Proof.
  intros r.
  assert (H1 : getActivity SampleMore.postprocess SampleMore.combine
                 SampleMore.format SampleMore.controllerIds SampleMore.rows
                 SampleMore.today = success r) by (vm_compute; reflexivity).
  assert (H2 : "stale" <> ETHEREUM) by discriminate.
  split; [exact (conj H1 H2)|].
  exact (getActivity_projects SampleMore.postprocess SampleMore.combine
           SampleMore.format SampleMore.controllerIds SampleMore.rows
           SampleMore.today r "stale" H1 H2).
Defined.

End ConcreteMore.
